(** * Master controller: agent orchestration (advanced-examples/master-controller/main.py)

    A shallow embedding of the orchestration engine: the agent registry and
    its lifecycle operations ([register_agent], [start_agent], [stop_agent]),
    the health-check loop with its bounded restart policy, the task queue
    ([submit_task]) and the in-memory message bus.

    Modelling conventions.
    - The controller object is a record; its methods are computations in a
      state-and-exception monad [M] whose state is that record. A raised
      Python exception keeps the state reached so far, as in Python.
    - Everything the code asks of the outside world (file system, process
      table, clock) is an explicit argument of the operation (its "world").
    - Logger output and calls to the operating system are appended, in
      program order, to the ghost field [trace] of the controller.
    - Operations are atomic: the threads of the source are interleaved at
      the granularity of whole method calls and whole health-check passes.
      [Queue.put] on the bounded bus queue only delays its caller, so
      [publish] is modelled by the enqueue it ends with. *)

From Stdlib Require Import ZArith String Ascii List Bool Lia.
From Stdlib Require Import DecimalString OrdersEx Sorted Permutation QArith_base.
From stdpp Require Import gmap strings.
Import ListNotations.

#[local] Open Scope Z_scope.
#[local] Open Scope string_scope.
#[local] Open Scope list_scope.

(** ** Python helpers *)

(** [str(n)] for an [int]. *)
Definition string_of_Z (z : Z) : string := NilZero.string_of_int (Z.to_int z).

(** A [dict] with string keys that is iterated over: an association list in
    insertion order. [d[k] = v] replaces the value of an existing key in
    place and appends a new key at the end. *)
Module PyDict.

Definition t (V : Type) : Type := list (string * V).

Fixpoint get {V} (k : string) (d : t V) : option V :=
  match d with
  | [] => None
  | (k', v) :: d' => if String.eqb k k' then Some v else get k d'
  end.

Fixpoint set {V} (k : string) (v : V) (d : t V) : t V :=
  match d with
  | [] => [(k, v)]
  | (k', v') :: d' =>
      if String.eqb k k' then (k', v) :: d' else (k', v') :: set k v d'
  end.

(** In-place mutation of the object stored under [k] (no effect when the
    key is absent). *)
Fixpoint alter {V} (f : V -> V) (k : string) (d : t V) : t V :=
  match d with
  | [] => []
  | (k', v) :: d' =>
      if String.eqb k k' then (k', f v) :: d' else (k', v) :: alter f k d'
  end.

Definition keys {V} (d : t V) : list string := map fst d.

Definition mem {V} (k : string) (d : t V) : bool :=
  match get k d with Some _ => true | None => false end.

End PyDict.

(** [posixpath.dirname] and [posixpath.join] (second argument relative). *)
Definition is_sep (c : ascii) : bool := Ascii.eqb c "/"%char.

Fixpoint drop_to_sep (l : list ascii) : list ascii :=
  match l with
  | [] => []
  | c :: t => if is_sep c then l else drop_to_sep t
  end.

Fixpoint lstrip_sep (l : list ascii) : list ascii :=
  match l with
  | [] => []
  | c :: t => if is_sep c then lstrip_sep t else l
  end.

Definition dirname (p : string) : string :=
  let head := rev (drop_to_sep (rev (list_ascii_of_string p))) in
  if forallb is_sep head then string_of_list_ascii head
  else string_of_list_ascii (rev (lstrip_sep (rev head))).

Definition ends_with_sep (p : string) : bool :=
  match rev (list_ascii_of_string p) with
  | c :: _ => is_sep c
  | [] => false
  end.

Definition path_join (a b : string) : string :=
  if String.eqb a "" || ends_with_sep a then a +:+ b else a +:+ "/" +:+ b.

(** ** Data model *)

Module AgentStatus.
Inductive t := STOPPED | STARTING | RUNNING | STOPPING | FAILED | UNKNOWN.

Definition eqb (a b : t) : bool :=
  match a, b with
  | STOPPED, STOPPED | STARTING, STARTING | RUNNING, RUNNING
  | STOPPING, STOPPING | FAILED, FAILED | UNKNOWN, UNKNOWN => true
  | _, _ => false
  end.
End AgentStatus.

Module TaskStatus.
Inductive t := PENDING | RUNNING | COMPLETED | FAILED | CANCELLED.
End TaskStatus.

(** The dictionary returned by [ResourceMonitor.get_agent_resources]. *)
Record Resources := {
  cpu_percent : Q;
  memory_mb : Q;
  memory_percent : Q;
  num_threads : Z;
  process_status : string
}.

Module AgentInfo.
Record t := {
  name : string;
  manifest_path : string;
  status : AgentStatus.t;
  pid : option Z;
  priority : Z;
  last_health_check : option string;
  restart_count : Z;
  resource_usage : option Resources
}.

Definition set_status (s : AgentStatus.t) (a : t) : t :=
  {| name := name a; manifest_path := manifest_path a; status := s;
     pid := pid a; priority := priority a;
     last_health_check := last_health_check a;
     restart_count := restart_count a; resource_usage := resource_usage a |}.

Definition set_pid (p : option Z) (a : t) : t :=
  {| name := name a; manifest_path := manifest_path a; status := status a;
     pid := p; priority := priority a;
     last_health_check := last_health_check a;
     restart_count := restart_count a; resource_usage := resource_usage a |}.

Definition set_last_health_check (h : option string) (a : t) : t :=
  {| name := name a; manifest_path := manifest_path a; status := status a;
     pid := pid a; priority := priority a;
     last_health_check := h;
     restart_count := restart_count a; resource_usage := resource_usage a |}.

Definition set_restart_count (n : Z) (a : t) : t :=
  {| name := name a; manifest_path := manifest_path a; status := status a;
     pid := pid a; priority := priority a;
     last_health_check := last_health_check a;
     restart_count := n; resource_usage := resource_usage a |}.

Definition set_resource_usage (r : option Resources) (a : t) : t :=
  {| name := name a; manifest_path := manifest_path a; status := status a;
     pid := pid a; priority := priority a;
     last_health_check := last_health_check a;
     restart_count := restart_count a; resource_usage := r |}.

(** Truth value of [agent.pid]: [None] and [0] are false. *)
Definition pid_truthy (a : t) : bool :=
  match pid a with
  | Some p => negb (Z.eqb p 0)
  | None => false
  end.
End AgentInfo.

(** Values carried by task parameters and bus messages. *)
Inductive PyValue := VStr (s : string) | VInt (z : Z).

Definition Message : Type := list (string * PyValue).

Module Task.
Record t := {
  id : string;
  agent : string;
  action : string;
  params : list (string * PyValue);
  priority : Z;
  status : TaskStatus.t;
  created_at : string;
  started_at : option string;
  completed_at : option string;
  result : option PyValue;
  error : option string
}.
End Task.

(** ** The outside world *)

Inductive LogLevel := INFO | WARNING | ERROR.

(** What the controller does to its surroundings, in program order. *)
Inductive Effect :=
| Log (level : LogLevel) (text : string)
| Popen (main_script cwd : string)
| PsProcess (pid : Z)
| Terminate (pid : Z)
| Wait (pid : Z) (timeout : Z)
| Kill (pid : Z)
| Invoke (callback : string) (message : Message).

(** A call that either returns or raises an exception with text [e]
    (an instance of [Exception], which is what the handlers of the source
    catch). *)
Inductive Outcome := Done | Raises (e : string).

(** [open(manifest_path)], [yaml.safe_load] and [manifest.get]: the manifest
    is a mapping with or without a [priority], or one of the three raises. *)
Inductive ManifestRead :=
| ManifestLoaded (priority : option Z)
| ManifestError (e : string).

(** [subprocess.Popen]: the new process identifier, or an exception. *)
Inductive SpawnResult := Spawned (pid : Z) | SpawnError (e : string).

Record StartWorld := {
  script_exists : bool;          (* os.path.exists(main_script) *)
  spawn : SpawnResult;
  started_at : string            (* datetime.now().isoformat() *)
}.

(** [process.wait(timeout=10)]. *)
Inductive WaitResult := Exited | TimeoutExpired | WaitError (e : string).

Record StopWorld := {
  lookup : Outcome;              (* psutil.Process(pid) *)
  terminate : Outcome;           (* process.terminate() *)
  wait : WaitResult;
  kill : Outcome                 (* process.kill() *)
}.

(** [get_agent_resources]: a sample, or [NoSuchProcess]/[AccessDenied]. *)
Inductive SampleResult := Sampled (r : Resources) | ProcessGone.

(** What one agent's health check meets. *)
Record TickWorld := {
  sample : SampleResult;
  restart : StartWorld;
  checked_at : string            (* datetime.now().isoformat() *)
}.

Record SubmitWorld := {
  time_ms : Z;                   (* int(time.time()*1000) *)
  created : string               (* datetime.now().isoformat() *)
}.

(** The entries of [settings.agents] the controller reads, [None] when the
    key is absent. *)
Record Config := {
  directory : option string;
  auto_discover : option bool;
  auto_start : option bool;
  restart_on_failure : option bool;
  max_restart_attempts : option Z
}.

(** ** queue.PriorityQueue

    Entries are tuples [(-priority, task_id)], compared as Python compares
    tuples: first component, then the strings, character by character.
    Entries leave the queue in ascending order; the heap is represented by
    the sorted list of its entries (entries that compare equal are equal
    tuples, so the order of retrieval is determined by the contents). *)
Module PriorityQueue.

Definition entry : Type := Z * string.
Definition t : Type := list entry.

Definition cmp (x y : entry) : comparison :=
  match Z.compare (fst x) (fst y) with
  | Eq => String_as_OT.compare (snd x) (snd y)
  | c => c
  end.

Definition leb (x y : entry) : bool :=
  match cmp x y with Gt => false | _ => true end.

Fixpoint put (e : entry) (q : t) : t :=
  match q with
  | [] => [e]
  | x :: q' => if leb x e then x :: put e q' else e :: q
  end.

Definition get (q : t) : option (entry * t) :=
  match q with
  | [] => None
  | x :: q' => Some (x, q')
  end.

(** [get] until the queue is empty. *)
Fixpoint drain (fuel : nat) (q : t) : list entry :=
  match fuel with
  | O => []
  | S n => match get q with
           | None => []
           | Some (x, q') => x :: drain n q'
           end
  end.

End PriorityQueue.

(** ** MessageBus *)
Module MessageBus.

(** A subscribed callable is known by a name; what it does when called is
    part of the world. *)
Record t := {
  subscribers : gmap string (list string);
  messages : list (string * Message);
  running : bool
}.

Definition init : t :=
  {| subscribers := ∅; messages := []; running := false |}.

Definition start (b : t) : t * list Effect :=
  ({| subscribers := subscribers b; messages := messages b; running := true |},
   [Log INFO "Message bus started"]).

Definition stop (b : t) : t * list Effect :=
  ({| subscribers := subscribers b; messages := messages b; running := false |},
   [Log INFO "Message bus stopped"]).

Definition publish (topic : string) (message : Message) (b : t) : t :=
  {| subscribers := subscribers b;
     messages := messages b ++ [(topic, message)];
     running := running b |}.

Definition subscribe (topic : string) (callback : string) (b : t) : t :=
  let current := match subscribers b !! topic with
                 | Some l => l
                 | None => []
                 end in
  {| subscribers := <[topic := current ++ [callback]]> (subscribers b);
     messages := messages b;
     running := running b |}.

(** The [for callback in self.subscribers[topic]] loop with its inner
    [try]/[except Exception]; [outcome i] is what the call of the [i]-th
    callback does. *)
Fixpoint dispatch (callbacks : list string) (message : Message)
    (outcome : nat -> Outcome) (i : nat) : list Effect :=
  match callbacks with
  | [] => []
  | callback :: rest =>
      Invoke callback message ::
      match outcome i with
      | Done => dispatch rest message outcome (S i)
      | Raises e =>
          Log ERROR ("Error in subscriber callback: " +:+ e)
          :: dispatch rest message outcome (S i)
      end
  end.

(** One iteration of the body of [while self.running] in
    [_process_messages] (sleeping when the queue is empty). *)
Definition process_one (outcome : nat -> Outcome) (b : t) : t * list Effect :=
  match messages b with
  | (topic, message) :: rest =>
      let b' := {| subscribers := subscribers b; messages := rest;
                   running := running b |} in
      match subscribers b !! topic with
      | Some callbacks => (b', dispatch callbacks message outcome 0)
      | None => (b', [])
      end
  | [] => (b, [])
  end.

(** [_process_messages]: one world per iteration of the loop. *)
Fixpoint process_messages (worlds : list (nat -> Outcome)) (b : t)
    : t * list Effect :=
  match worlds with
  | [] => (b, [])
  | w :: worlds' =>
      if running b then
        let '(b1, t1) := process_one w b in
        let '(b2, t2) := process_messages worlds' b1 in
        (b2, t1 ++ t2)
      else (b, [])
  end.

End MessageBus.

(** ** ResourceMonitor *)
Module ResourceMonitor.

Record t := { process_cache : gset Z }.

Definition init : t := {| process_cache := ∅ |}.

(** A sampled process stays in the cache; a vanished one is evicted. *)
Definition get_agent_resources (pid : Z) (w : SampleResult) (m : t)
    : option Resources * t :=
  match w with
  | Sampled r => (Some r, {| process_cache := {[pid]} ∪ process_cache m |})
  | ProcessGone => (None, {| process_cache := process_cache m ∖ {[pid]} |})
  end.

End ResourceMonitor.

(** ** MasterController *)


Record MasterController := {
  config : Config;
  agents : PyDict.t AgentInfo.t;
  tasks : gmap string Task.t;
  task_queue : PriorityQueue.t;
  message_bus : MessageBus.t;
  resource_monitor : ResourceMonitor.t;
  running : bool;
  trace : list Effect
}.

(** [MasterController.__init__] *)
Definition init (cfg : Config) : MasterController :=
  {| config := cfg; agents := []; tasks := ∅; task_queue := [];
     message_bus := MessageBus.init;
     resource_monitor := ResourceMonitor.init;
     running := false;
     trace := [Log INFO "Master Controller initialized"] |}.

Definition with_agents (f : PyDict.t AgentInfo.t -> PyDict.t AgentInfo.t)
    (c : MasterController) : MasterController :=
  {| config := config c; agents := f (agents c); tasks := tasks c;
     task_queue := task_queue c; message_bus := message_bus c;
     resource_monitor := resource_monitor c; running := running c;
     trace := trace c |}.

Definition with_tasks (f : gmap string Task.t -> gmap string Task.t)
    (c : MasterController) : MasterController :=
  {| config := config c; agents := agents c; tasks := f (tasks c);
     task_queue := task_queue c; message_bus := message_bus c;
     resource_monitor := resource_monitor c; running := running c;
     trace := trace c |}.

Definition with_task_queue (f : PriorityQueue.t -> PriorityQueue.t)
    (c : MasterController) : MasterController :=
  {| config := config c; agents := agents c; tasks := tasks c;
     task_queue := f (task_queue c); message_bus := message_bus c;
     resource_monitor := resource_monitor c; running := running c;
     trace := trace c |}.

Definition with_message_bus (f : MessageBus.t -> MessageBus.t)
    (c : MasterController) : MasterController :=
  {| config := config c; agents := agents c; tasks := tasks c;
     task_queue := task_queue c; message_bus := f (message_bus c);
     resource_monitor := resource_monitor c; running := running c;
     trace := trace c |}.

Definition with_resource_monitor (m : ResourceMonitor.t)
    (c : MasterController) : MasterController :=
  {| config := config c; agents := agents c; tasks := tasks c;
     task_queue := task_queue c; message_bus := message_bus c;
     resource_monitor := m; running := running c;
     trace := trace c |}.

Definition with_running (r : bool) (c : MasterController) : MasterController :=
  {| config := config c; agents := agents c; tasks := tasks c;
     task_queue := task_queue c; message_bus := message_bus c;
     resource_monitor := resource_monitor c; running := r;
     trace := trace c |}.

Definition with_trace (f : list Effect -> list Effect)
    (c : MasterController) : MasterController :=
  {| config := config c; agents := agents c; tasks := tasks c;
     task_queue := task_queue c; message_bus := message_bus c;
     resource_monitor := resource_monitor c; running := running c;
     trace := f (trace c) |}.

(** *** The monad of controller methods *)

Inductive Res (A : Type) := Val (a : A) | Exn (e : string).
Arguments Val {A} a.
Arguments Exn {A} e.

Definition M (A : Type) : Type := MasterController -> Res A * MasterController.

Definition ret {A} (a : A) : M A := fun c => (Val a, c).

Definition bind {A B} (m : M A) (k : A -> M B) : M B :=
  fun c => match m c with
           | (Val a, c') => k a c'
           | (Exn e, c') => (Exn e, c')
           end.

Definition raise {A} (e : string) : M A := fun c => (Exn e, c).

(** [try: m  except Exception as e: h e] *)
Definition try_except {A} (m : M A) (h : string -> M A) : M A :=
  fun c => match m c with
           | (Val a, c') => (Val a, c')
           | (Exn e, c') => h e c'
           end.

Definition gets {A} (f : MasterController -> A) : M A := fun c => (Val (f c), c).

Definition modify (f : MasterController -> MasterController) : M unit :=
  fun c => (Val tt, f c).

Declare Scope controller_scope.
Delimit Scope controller_scope with M.
Notation "x <- m ;; k" := (bind m (fun x => k))
  (at level 100, m at next level, right associativity) : controller_scope.
Notation "m ;; k" := (bind m (fun _ => k))
  (at level 100, right associativity) : controller_scope.
#[local] Open Scope controller_scope.

Definition exec {A} (m : M A) (c : MasterController) : MasterController :=
  snd (m c).

Definition emit (e : Effect) : M unit :=
  modify (with_trace (fun t => t ++ [e])).

Definition log (level : LogLevel) (text : string) : M unit :=
  emit (Log level text).

(** An assignment to a field of the agent object registered as [name]. *)
Definition update_agent (name : string) (f : AgentInfo.t -> AgentInfo.t) : M unit :=
  modify (with_agents (PyDict.alter f name)).

Definition publish (topic : string) (message : Message) : M unit :=
  modify (with_message_bus (MessageBus.publish topic message)).

Fixpoint for_each {A} (l : list A) (body : A -> M unit) : M unit :=
  match l with
  | [] => ret tt
  | x :: l' => body x ;; for_each l' body
  end.

(** A call into the world that may raise. *)
Definition call (e : Effect) (o : Outcome) : M unit :=
  emit e ;;
  match o with
  | Done => ret tt
  | Raises err => raise err
  end.

(** *** register_agent *)

Definition load_manifest (m : ManifestRead) : M Z :=
  match m with
  | ManifestLoaded (Some p) => ret p
  | ManifestLoaded None => ret 5
  | ManifestError e => raise e
  end.

Definition register_agent (name manifest_path : string) (m : ManifestRead)
    : M unit :=
  try_except
    (priority <- load_manifest m ;;
     let agent :=
       {| AgentInfo.name := name;
          AgentInfo.manifest_path := manifest_path;
          AgentInfo.status := AgentStatus.STOPPED;
          AgentInfo.pid := None;
          AgentInfo.priority := priority;
          AgentInfo.last_health_check := None;
          AgentInfo.restart_count := 0;
          AgentInfo.resource_usage := None |} in
     modify (with_agents (PyDict.set name agent)) ;;
     log INFO ("Registered agent: " +:+ name))
    (fun e => log ERROR ("Error registering agent " +:+ name +:+ ": " +:+ e)).

(** *** start_agent *)

Definition popen (main_script cwd : string) (r : SpawnResult) : M Z :=
  emit (Popen main_script cwd) ;;
  match r with
  | Spawned pid => ret pid
  | SpawnError e => raise e
  end.

Definition start_agent (name : string) (w : StartWorld) : M bool :=
  registry <- gets agents ;;
  match PyDict.get name registry with
  | None => log ERROR ("Agent not found: " +:+ name) ;; ret false
  | Some agent =>
      if AgentStatus.eqb (AgentInfo.status agent) AgentStatus.RUNNING then
        log WARNING ("Agent already running: " +:+ name) ;; ret true
      else
        try_except
          (update_agent name (AgentInfo.set_status AgentStatus.STARTING) ;;
           let agent_dir := dirname (AgentInfo.manifest_path agent) in
           let main_script := path_join agent_dir "main.py" in
           if negb (script_exists w) then
             log ERROR ("Agent main script not found: " +:+ main_script) ;;
             update_agent name (AgentInfo.set_status AgentStatus.FAILED) ;;
             ret false
           else
             pid <- popen main_script agent_dir (spawn w) ;;
             update_agent name (AgentInfo.set_pid (Some pid)) ;;
             update_agent name (AgentInfo.set_status AgentStatus.RUNNING) ;;
             update_agent name
               (AgentInfo.set_last_health_check (Some (started_at w))) ;;
             log INFO ("Started agent: " +:+ name +:+ " (PID: "
                       +:+ string_of_Z pid +:+ ")") ;;
             publish "agent.status"
               [("agent", VStr name); ("status", VStr "started");
                ("pid", VInt pid)] ;;
             ret true)
          (fun e =>
             log ERROR ("Error starting agent " +:+ name +:+ ": " +:+ e) ;;
             update_agent name (AgentInfo.set_status AgentStatus.FAILED) ;;
             ret false)
  end.

(** *** stop_agent *)

Definition stop_agent (name : string) (w : StopWorld) : M bool :=
  registry <- gets agents ;;
  match PyDict.get name registry with
  | None => log ERROR ("Agent not found: " +:+ name) ;; ret false
  | Some agent =>
      if negb (AgentStatus.eqb (AgentInfo.status agent) AgentStatus.RUNNING)
         || negb (AgentInfo.pid_truthy agent) then
        log WARNING ("Agent not running: " +:+ name) ;; ret true
      else
        let pid := match AgentInfo.pid agent with Some p => p | None => 0 end in
        try_except
          (update_agent name (AgentInfo.set_status AgentStatus.STOPPING) ;;
           call (PsProcess pid) (lookup w) ;;
           call (Terminate pid) (terminate w) ;;
           emit (Wait pid 10) ;;
           match wait w with
           | Exited => ret tt
           | TimeoutExpired => call (Kill pid) (kill w)
           | WaitError e => raise e
           end ;;
           update_agent name (AgentInfo.set_status AgentStatus.STOPPED) ;;
           update_agent name (AgentInfo.set_pid None) ;;
           log INFO ("Stopped agent: " +:+ name) ;;
           publish "agent.status"
             [("agent", VStr name); ("status", VStr "stopped")] ;;
           ret true)
          (fun e =>
             log ERROR ("Error stopping agent " +:+ name +:+ ": " +:+ e) ;;
             ret false)
  end.

(** *** submit_task *)

Definition task_id_of (agent action : string) (ms : Z) : string :=
  agent +:+ "_" +:+ action +:+ "_" +:+ string_of_Z ms.

Definition submit_task (agent action : string)
    (params : list (string * PyValue)) (priority : Z) (w : SubmitWorld)
    : M string :=
  let task_id := task_id_of agent action (time_ms w) in
  let task :=
    {| Task.id := task_id; Task.agent := agent; Task.action := action;
       Task.params := params; Task.priority := priority;
       Task.status := TaskStatus.PENDING; Task.created_at := created w;
       Task.started_at := None; Task.completed_at := None;
       Task.result := None; Task.error := None |} in
  modify (with_tasks (insert task_id task)) ;;
  modify (with_task_queue (PriorityQueue.put (- priority, task_id))) ;;
  log INFO ("Task submitted: " +:+ task_id +:+ " (priority: "
            +:+ string_of_Z priority +:+ ")") ;;
  ret task_id.

(** *** health_check_loop *)

Definition get_agent_resources (pid : Z) (w : SampleResult)
    : M (option Resources) :=
  monitor <- gets resource_monitor ;;
  let '(r, monitor') := ResourceMonitor.get_agent_resources pid w monitor in
  modify (with_resource_monitor monitor') ;;
  ret r.

Definition restart_enabled (cfg : Config) : bool :=
  match restart_on_failure cfg with Some b => b | None => true end.

Definition max_attempts (cfg : Config) : Z :=
  match max_restart_attempts cfg with Some n => n | None => 3 end.

(** The body of [for name, agent in self.agents.items()] for one agent. *)
Definition health_check_agent (name : string) (w : TickWorld) : M unit :=
  registry <- gets agents ;;
  match PyDict.get name registry with
  | None => ret tt
  | Some agent =>
      if AgentStatus.eqb (AgentInfo.status agent) AgentStatus.RUNNING
         && AgentInfo.pid_truthy agent then
        let pid := match AgentInfo.pid agent with Some p => p | None => 0 end in
        resources <- get_agent_resources pid (sample w) ;;
        match resources with
        | None =>
            log WARNING ("Agent " +:+ name +:+ " is not running") ;;
            update_agent name (AgentInfo.set_status AgentStatus.FAILED) ;;
            cfg <- gets config ;;
            if restart_enabled cfg then
              if Z.ltb (AgentInfo.restart_count agent) (max_attempts cfg) then
                let count := AgentInfo.restart_count agent + 1 in
                update_agent name (AgentInfo.set_restart_count count) ;;
                log INFO ("Restarting agent " +:+ name +:+ " (attempt "
                          +:+ string_of_Z count +:+ "/"
                          +:+ string_of_Z (max_attempts cfg) +:+ ")") ;;
                _ <- start_agent name (restart w) ;;
                ret tt
              else ret tt
            else ret tt
        | Some r =>
            update_agent name (AgentInfo.set_resource_usage (Some r)) ;;
            update_agent name
              (AgentInfo.set_last_health_check (Some (checked_at w)))
        end
      else ret tt
  end.

(** One pass of the loop body: the [try] around the [for] over the
    registry (the sleep is not modelled). *)
Definition health_check_pass (w : string -> TickWorld) : M unit :=
  try_except
    (registry <- gets agents ;;
     for_each (PyDict.keys registry) (fun name => health_check_agent name (w name)))
    (fun e => log ERROR ("Error in health check loop: " +:+ e)).

(** [while self.running]: one world per iteration. *)
Fixpoint health_check_loop (ticks : list (string -> TickWorld)) : M unit :=
  match ticks with
  | [] => ret tt
  | w :: ticks' =>
      r <- gets running ;;
      if r then health_check_pass w ;; health_check_loop ticks' else ret tt
  end.

(** *** discover_agents, start, stop *)

Record DirEntry := {
  entry_name : string;
  is_agent_dir : bool;   (* isdir(agent_path) and exists(manifest_path) *)
  manifest : ManifestRead
}.

Definition agents_directory (cfg : Config) : string :=
  match directory cfg with Some d => d | None => "./agents" end.

(** [listing] is [None] when the agent directory does not exist. *)
Definition discover_agents (listing : option (list DirEntry)) : M unit :=
  cfg <- gets config ;;
  let agent_dir := agents_directory cfg in
  match listing with
  | None => log WARNING ("Agent directory not found: " +:+ agent_dir)
  | Some entries =>
      for_each entries (fun e =>
        let agent_path := path_join agent_dir (entry_name e) in
        let manifest_path := path_join agent_path "manifest.yaml" in
        if is_agent_dir e then
          register_agent (entry_name e) manifest_path (manifest e)
        else ret tt) ;;
      registry <- gets agents ;;
      log INFO ("Discovered " +:+ string_of_Z (Z.of_nat (length registry))
                +:+ " agents")
  end.

Record ControllerStartWorld := {
  listing : option (list DirEntry);
  starts : string -> StartWorld
}.

Definition start (w : ControllerStartWorld) : M unit :=
  log INFO "Starting Master Controller" ;;
  modify (with_running true) ;;
  bus <- gets message_bus ;;
  let '(bus', t) := MessageBus.start bus in
  modify (with_message_bus (fun _ => bus')) ;;
  modify (with_trace (fun t0 => t0 ++ t)) ;;
  cfg <- gets config ;;
  (if match auto_discover cfg with Some b => b | None => true end
   then discover_agents (listing w) else ret tt) ;;
  (if match auto_start cfg with Some b => b | None => false end
   then registry <- gets agents ;;
        for_each (PyDict.keys registry)
          (fun name => _ <- start_agent name (starts w name) ;; ret tt)
   else ret tt) ;;
  log INFO "Master Controller started".

Definition stop (w : string -> StopWorld) : M unit :=
  log INFO "Stopping Master Controller" ;;
  modify (with_running false) ;;
  registry <- gets agents ;;
  for_each (PyDict.keys registry)
    (fun name => _ <- stop_agent name (w name) ;; ret tt) ;;
  bus <- gets message_bus ;;
  let '(bus', t) := MessageBus.stop bus in
  modify (with_message_bus (fun _ => bus')) ;;
  modify (with_trace (fun t0 => t0 ++ t)) ;;
  log INFO "Master Controller stopped".

(** ** Histories of the controller *)

Inductive Op :=
| Register (name manifest_path : string) (m : ManifestRead)
| Discover (listing : option (list DirEntry))
| StartAgent (name : string) (w : StartWorld)
| StopAgent (name : string) (w : StopWorld)
| SubmitTask (agent action : string) (params : list (string * PyValue))
    (priority : Z) (w : SubmitWorld)
| Tick (w : string -> TickWorld)
| Start (w : ControllerStartWorld)
| Stop (w : string -> StopWorld).

Definition step (o : Op) (c : MasterController) : MasterController :=
  match o with
  | Register name path m => exec (register_agent name path m) c
  | Discover l => exec (discover_agents l) c
  | StartAgent name w => exec (start_agent name w) c
  | StopAgent name w => exec (stop_agent name w) c
  | SubmitTask agent action params priority w =>
      exec (submit_task agent action params priority w) c
  | Tick w => exec (health_check_loop [w]) c
  | Start w => exec (start w) c
  | Stop w => exec (stop w) c
  end.

Definition run (ops : list Op) (c : MasterController) : MasterController :=
  fold_left (fun c o => step o c) ops c.

(** The states the controller built from configuration [cfg] can be in
    between two operations. *)
Definition reachable (cfg : Config) (c : MasterController) : Prop :=
  exists ops, c = run ops (init cfg).

(** ** Net effect of the lifecycle operations on one agent record *)

(** What [start_agent] leaves in the record it was called for. *)
Definition start_effect (w : StartWorld) (a : AgentInfo.t) : AgentInfo.t :=
  if AgentStatus.eqb (AgentInfo.status a) AgentStatus.RUNNING then a
  else if negb (script_exists w) then
    AgentInfo.set_status AgentStatus.FAILED a
  else
    match spawn w with
    | Spawned pid =>
        AgentInfo.set_last_health_check (Some (started_at w))
          (AgentInfo.set_status AgentStatus.RUNNING
             (AgentInfo.set_pid (Some pid) a))
    | SpawnError _ => AgentInfo.set_status AgentStatus.FAILED a
    end.

(** The first exception raised while signalling the process, if any. *)
Definition stop_error (w : StopWorld) : option string :=
  match lookup w with
  | Raises e => Some e
  | Done =>
      match terminate w with
      | Raises e => Some e
      | Done =>
          match wait w with
          | Exited => None
          | WaitError e => Some e
          | TimeoutExpired =>
              match kill w with
              | Raises e => Some e
              | Done => None
              end
          end
      end
  end.

(** What [stop_agent] leaves in the record it was called for. *)
Definition stop_effect (w : StopWorld) (a : AgentInfo.t) : AgentInfo.t :=
  if negb (AgentStatus.eqb (AgentInfo.status a) AgentStatus.RUNNING)
     || negb (AgentInfo.pid_truthy a) then a
  else
    match stop_error w with
    | Some _ => AgentInfo.set_status AgentStatus.STOPPING a
    | None =>
        AgentInfo.set_pid None (AgentInfo.set_status AgentStatus.STOPPED a)
    end.

(** Does the restart policy call [start_agent] for a record found dead? *)
Definition restart_due (cfg : Config) (a : AgentInfo.t) : bool :=
  restart_enabled cfg
  && Z.ltb (AgentInfo.restart_count a) (max_attempts cfg).

(** What one health check leaves in the record it inspects. *)
Definition health_effect (cfg : Config) (w : TickWorld) (a : AgentInfo.t)
    : AgentInfo.t :=
  if AgentStatus.eqb (AgentInfo.status a) AgentStatus.RUNNING
     && AgentInfo.pid_truthy a then
    match sample w with
    | ProcessGone =>
        let failed := AgentInfo.set_status AgentStatus.FAILED a in
        if restart_due cfg a then
          start_effect (restart w)
            (AgentInfo.set_restart_count (AgentInfo.restart_count a + 1) failed)
        else failed
    | Sampled r =>
        AgentInfo.set_last_health_check (Some (checked_at w))
          (AgentInfo.set_resource_usage (Some r) a)
    end
  else a.

(** The calls [stop_agent] makes on the process, up to the first one that
    raises. *)
Definition stop_calls (pid : Z) (w : StopWorld) : list Effect :=
  PsProcess pid ::
  match lookup w with
  | Raises _ => []
  | Done =>
      Terminate pid ::
      match terminate w with
      | Raises _ => []
      | Done =>
          Wait pid 10 ::
          match wait w with
          | TimeoutExpired => [Kill pid]
          | _ => []
          end
      end
  end.

(** The pid of the process [start_agent] spawns for a record, if it
    spawns one. *)
Definition start_spawns (w : StartWorld) (a : AgentInfo.t) : option Z :=
  if AgentStatus.eqb (AgentInfo.status a) AgentStatus.RUNNING then None
  else if negb (script_exists w) then None
  else match spawn w with
       | Spawned pid => Some pid
       | SpawnError _ => None
       end.

Definition started_event (name : string) (pid : Z) : string * Message :=
  ("agent.status",
   [("agent", VStr name); ("status", VStr "started"); ("pid", VInt pid)]).

(** The events one health check publishes for a record: the [started]
    event of a restart that spawned a process, and nothing else. *)
Definition health_events (cfg : Config) (name : string) (w : TickWorld)
    (a : AgentInfo.t) : list (string * Message) :=
  if AgentStatus.eqb (AgentInfo.status a) AgentStatus.RUNNING
     && AgentInfo.pid_truthy a then
    match sample w with
    | ProcessGone =>
        if restart_due cfg a then
          match start_spawns (restart w)
                  (AgentInfo.set_status AgentStatus.FAILED a) with
          | Some pid => [started_event name pid]
          | None => []
          end
        else []
    | Sampled _ => []
    end
  else [].

(** The record [register_agent] creates. *)
Definition fresh_agent (name manifest_path : string) (priority : option Z)
    : AgentInfo.t :=
  {| AgentInfo.name := name;
     AgentInfo.manifest_path := manifest_path;
     AgentInfo.status := AgentStatus.STOPPED;
     AgentInfo.pid := None;
     AgentInfo.priority := match priority with Some p => p | None => 5 end;
     AgentInfo.last_health_check := None;
     AgentInfo.restart_count := 0;
     AgentInfo.resource_usage := None |}.

(** The statuses under which a record is expected to carry a pid. *)
Definition active (s : AgentStatus.t) : Prop :=
  s = AgentStatus.STARTING \/ s = AgentStatus.RUNNING
  \/ s = AgentStatus.STOPPING.

Definition registry_all (P : AgentInfo.t -> Prop) (d : PyDict.t AgentInfo.t)
    : Prop :=
  forall n a, PyDict.get n d = Some a -> P a.

(** [m] keeps the controller inside [I], whether it returns or raises. *)
Definition preserves {A} (I : MasterController -> Prop) (m : M A) : Prop :=
  forall c, I c -> I (exec m c).

(** What holds of a record between two operations: a stopped agent has no
    pid, a running or stopping one has, and a failed one may or may not;
    [STARTING] exists only inside [start_agent] and [UNKNOWN] is never
    assigned. *)
Definition lifecycle_ok (a : AgentInfo.t) : Prop :=
  match AgentInfo.status a with
  | AgentStatus.STOPPED => AgentInfo.pid a = None
  | AgentStatus.RUNNING | AgentStatus.STOPPING => AgentInfo.pid a <> None
  | AgentStatus.FAILED => True
  | AgentStatus.STARTING | AgentStatus.UNKNOWN => False
  end.

(** The controller still has configuration [cfg] and every record of its
    registry satisfies [P]. *)
Definition registry_inv (cfg : Config) (P : AgentInfo.t -> Prop)
    (c : MasterController) : Prop :=
  config c = cfg /\ registry_all P (agents c).

(** ** The order of the task queue *)

(** [x] leaves the queue no later than [y]: the entry of the higher
    priority goes first (entries hold the negated priority), and among
    equal priorities the one whose task id is the smaller string. *)
Definition before (x y : PriorityQueue.entry) : Prop :=
  fst x < fst y
  \/ (fst x = fst y /\ String_as_OT.compare (snd x) (snd y) <> Gt).

(** The queue entries a history submits, in the order of submission. *)
Fixpoint submitted (ops : list Op) : list PriorityQueue.entry :=
  match ops with
  | [] => []
  | SubmitTask agent action _ priority w :: ops' =>
      (- priority, task_id_of agent action (time_ms w)) :: submitted ops'
  | _ :: ops' => submitted ops'
  end.

(** The task ids in the order in which a consumer gets them. *)
Definition dequeue_order (c : MasterController) : list string :=
  map snd (PriorityQueue.drain (length (task_queue c)) (task_queue c)).

(** The task queue of the controller is [q]. *)
Definition queue_is (q : PriorityQueue.t) (c : MasterController) : Prop :=
  task_queue c = q.

(** The calls of subscribed callbacks in a trace: who was called, with
    which message. *)
Definition invocations (t : list Effect) : list (string * Message) :=
  flat_map (fun e => match e with
                     | Invoke callback message => [(callback, message)]
                     | _ => []
                     end) t.

(** ** Concrete inputs used in examples *)

Definition manual_config : Config :=
  {| directory := None; auto_discover := Some false; auto_start := None;
     restart_on_failure := Some false; max_restart_attempts := None |}.

Definition default_config : Config :=
  {| directory := None; auto_discover := None; auto_start := None;
     restart_on_failure := None; max_restart_attempts := None |}.

Definition spawn_ok (pid : Z) (now : string) : StartWorld :=
  {| script_exists := true; spawn := Spawned pid; started_at := now |}.

Definition no_script : StartWorld :=
  {| script_exists := false; spawn := SpawnError "unused"; started_at := "" |}.

Definition found_dead (w : StartWorld) : string -> TickWorld :=
  fun _ => {| sample := ProcessGone; restart := w;
              checked_at := "2024-01-01T00:01:00" |}.

Definition scanner_manifest : string := "./agents/scanner/manifest.yaml".

(** A controller with agent [scanner] registered and running as pid 4242. *)
Definition scanner_running (cfg : Config) : MasterController :=
  run [Register "scanner" scanner_manifest (ManifestLoaded (Some 3));
       StartAgent "scanner" (spawn_ok 4242 "2024-01-01T00:00:00")]
      (init cfg).

(** The record of [scanner] in [scanner_running]. *)
Definition scanner_record : AgentInfo.t :=
  {| AgentInfo.name := "scanner";
     AgentInfo.manifest_path := scanner_manifest;
     AgentInfo.status := AgentStatus.RUNNING;
     AgentInfo.pid := Some 4242;
     AgentInfo.priority := 3;
     AgentInfo.last_health_check := Some "2024-01-01T00:00:00";
     AgentInfo.restart_count := 0;
     AgentInfo.resource_usage := None |}.

Definition controller_start_world : ControllerStartWorld :=
  {| listing := None; starts := fun _ => no_script |}.

(** The controller is started, [scanner] is registered and started by the
    operator. *)
Definition scanner_supervised (cfg : Config) : MasterController :=
  run [Start controller_start_world;
       Register "scanner" scanner_manifest (ManifestLoaded (Some 3));
       StartAgent "scanner" (spawn_ok 4242 "2024-01-01T00:00:00")]
      (init cfg).

(** ... and then the next health-check pass finds its process gone. *)
Definition scanner_died (cfg : Config) (w : StartWorld) : MasterController :=
  step (Tick (found_dead w)) (scanner_supervised cfg).

(** One automatic restart allowed. *)
Definition one_restart_config : Config :=
  {| directory := None; auto_discover := Some false; auto_start := None;
     restart_on_failure := None; max_restart_attempts := Some 1 |}.

(** The record of [scanner] after the health check restarted it as pid
    4243. *)
Definition scanner_restarted_record : AgentInfo.t :=
  {| AgentInfo.name := "scanner";
     AgentInfo.manifest_path := scanner_manifest;
     AgentInfo.status := AgentStatus.RUNNING;
     AgentInfo.pid := Some 4243;
     AgentInfo.priority := 3;
     AgentInfo.last_health_check := Some "2024-01-01T00:01:01";
     AgentInfo.restart_count := 1;
     AgentInfo.resource_usage := None |}.

Definition at_ms (ms : Z) : SubmitWorld :=
  {| time_ms := ms; created := "2023-11-14T22:13:20" |}.

(** Three tasks for the same agent and action, priorities 5, 8, 5. *)
Definition same_agent_history : list Op :=
  [SubmitTask "scanner" "scan" [] 5 (at_ms 1700000000001);
   SubmitTask "scanner" "scan" [] 8 (at_ms 1700000000002);
   SubmitTask "scanner" "scan" [] 5 (at_ms 1700000000003)].

(** Three tasks for different agents, priorities 5, 8, 5. *)
Definition mixed_agents_history : list Op :=
  [SubmitTask "zeta" "run" [] 5 (at_ms 1700000000001);
   SubmitTask "beta" "run" [] 8 (at_ms 1700000000002);
   SubmitTask "alpha" "run" [] 5 (at_ms 1700000000003)].

Definition status_message : Message :=
  [("agent", VStr "scanner"); ("status", VStr "stopped")].

(** A bus with two subscribers of [agent.status] and one message queued. *)
Definition bus_two_subscribers : MessageBus.t :=
  MessageBus.publish "agent.status" status_message
    (MessageBus.subscribe "agent.status" "dashboard"
       (MessageBus.subscribe "agent.status" "audit_log"
          (fst (MessageBus.start MessageBus.init)))).

(** The first callback called raises, the others return. *)
Definition first_raises : nat -> Outcome :=
  fun i => match i with
           | O => Raises "KeyError: 'pid'"
           | S _ => Done
           end.

Definition terminate_denied : StopWorld :=
  {| lookup := Done; terminate := Raises "psutil.AccessDenied";
     wait := Exited; kill := Done |}.

Definition stops_cleanly : StopWorld :=
  {| lookup := Done; terminate := Done; wait := Exited; kill := Done |}.

(** ** The command line

    The two branches of [main] that act on one agent. Each runs in a new
    process: the controller is built, discovers the agents, performs the
    command and prints one line, which is the value returned here. *)

(** [python main.py --agent-start NAME] *)
Definition main_agent_start (listing : option (list DirEntry))
    (name : string) (w : StartWorld) : M string :=
  discover_agents listing ;;
  ok <- start_agent name w ;;
  ret (if ok : bool then "Agent " +:+ name +:+ " started"
       else "Failed to start agent " +:+ name).

(** [python main.py --agent-stop NAME] *)
Definition main_agent_stop (listing : option (list DirEntry))
    (name : string) (w : StopWorld) : M string :=
  discover_agents listing ;;
  ok <- stop_agent name w ;;
  ret (if ok : bool then "Agent " +:+ name +:+ " stopped"
       else "Failed to stop agent " +:+ name).

(** ** Further notions used in the properties *)

(** A call on an existing process: lookup, signal or wait. *)
Definition signals_process (e : Effect) : bool :=
  match e with
  | PsProcess _ | Terminate _ | Wait _ _ | Kill _ => true
  | _ => false
  end.

(** [m] returns a value from every state. *)
Definition never_raises {A} (m : M A) : Prop :=
  forall c, exists a, fst (m c) = Val a.

(** The controller still has configuration [cfg] and its registry, as a
    whole, satisfies [J]. *)
Definition registry_sat (cfg : Config) (J : PyDict.t AgentInfo.t -> Prop)
    (c : MasterController) : Prop :=
  config c = cfg /\ J (agents c).

(** [a'] is a later state of the record [a]: the fields fixed at
    registration are the same and the restart counter has not gone down. *)
Definition later_record (a a' : AgentInfo.t) : Prop :=
  AgentInfo.name a' = AgentInfo.name a
  /\ AgentInfo.manifest_path a' = AgentInfo.manifest_path a
  /\ AgentInfo.priority a' = AgentInfo.priority a
  /\ AgentInfo.restart_count a <= AgentInfo.restart_count a'.

(** Every record of [d] is a later state of the record of the same name
    in [d0]. *)
Definition later_registry (d0 d : PyDict.t AgentInfo.t) : Prop :=
  forall n a', PyDict.get n d = Some a' ->
    exists a, PyDict.get n d0 = Some a /\ later_record a a'.

(** The operations that register nothing: starting and stopping agents,
    submitting tasks, health-check passes and the shutdown of the
    controller. *)
Definition registers_nothing (o : Op) : bool :=
  match o with
  | StartAgent _ _ | StopAgent _ _ | SubmitTask _ _ _ _ _ | Tick _ | Stop _ =>
      true
  | Register _ _ _ | Discover _ | Start _ => false
  end.

(** The keys are pairwise different and every record is stored under its
    own name. *)
Definition registry_wf (d : PyDict.t AgentInfo.t) : Prop :=
  NoDup (PyDict.keys d)
  /\ forall n a, PyDict.get n d = Some a -> AgentInfo.name a = n.

(** Every queued task id has a task, and every stored task is pending,
    is stored under its own id and has its entry in the queue. *)
Definition tasks_wf (c : MasterController) : Prop :=
  (forall p id, In (p, id) (task_queue c) -> is_Some (tasks c !! id))
  /\ (forall id t, tasks c !! id = Some t ->
        Task.id t = id /\ Task.status t = TaskStatus.PENDING
        /\ In (- Task.priority t, id) (task_queue c)).

(** The calls one pass of the consumer makes for the queued messages, in
    the order of the queue: each message goes to the callbacks subscribed
    to its topic, to none when the topic has no subscriber. *)
Definition deliveries (subs : gmap string (list string))
    (queue : list (string * Message)) : list (string * Message) :=
  flat_map (fun tm => match subs !! fst tm with
                      | Some callbacks =>
                          map (fun callback => (callback, snd tm)) callbacks
                      | None => []
                      end) queue.


(** The component [proj] of the controller has the value [x]. *)
Definition keeps {X : Type} (proj : MasterController -> X) (x : X)
    (c : MasterController) : Prop :=
  proj c = x.

(** The [stopped] event of [stop_agent]. *)
Definition stopped_event (name : string) : string * Message :=
  ("agent.status", [("agent", VStr name); ("status", VStr "stopped")]).

(** The manifest path [discover_agents] builds for a directory entry. *)
Definition manifest_path_of (cfg : Config) (e : DirEntry) : string :=
  path_join (path_join (agents_directory cfg) (entry_name e)) "manifest.yaml".

(** What [discover_agents] does to the registry for one directory entry. *)
Definition discover_entry (cfg : Config) (d : PyDict.t AgentInfo.t)
    (e : DirEntry) : PyDict.t AgentInfo.t :=
  if is_agent_dir e then
    match manifest e with
    | ManifestLoaded p =>
        PyDict.set (entry_name e)
          (fresh_agent (entry_name e) (manifest_path_of cfg e) p) d
    | ManifestError _ => d
    end
  else d.

(** An agent directory with a readable manifest. *)
Definition readable (e : DirEntry) : bool :=
  is_agent_dir e
  && match manifest e with ManifestLoaded _ => true | ManifestError _ => false end.

(** A listing of the agent directory: a file, an agent with a broken
    manifest and two agents with readable manifests. *)
Definition sample_listing : list DirEntry :=
  [{| entry_name := "README.md"; is_agent_dir := false;
      manifest := ManifestError "NotADirectoryError" |};
   {| entry_name := "broken"; is_agent_dir := true;
      manifest := ManifestError "yaml.scanner.ScannerError" |};
   {| entry_name := "scanner"; is_agent_dir := true;
      manifest := ManifestLoaded (Some 3) |};
   {| entry_name := "writer"; is_agent_dir := true;
      manifest := ManifestLoaded None |}].

(** The record of [scanner] while it is stopped and was never started. *)
Definition scanner_stopped_record : AgentInfo.t :=
  fresh_agent "scanner" scanner_manifest (Some 3).

Definition scanner_registered (cfg : Config) : MasterController :=
  run [Register "scanner" scanner_manifest (ManifestLoaded (Some 3))]
      (init cfg).

(** The operations that sample processes: the health-check passes. *)
Definition samples_processes (o : Op) : bool :=
  match o with
  | Tick _ => true
  | _ => false
  end.

(** The characters of a path component: no separator among them. *)
Definition no_sep (s : string) : Prop :=
  forallb (fun c => negb (is_sep c)) (list_ascii_of_string s) = true.

(** ** Proof automation *)

(** Reduction of the record plumbing only: projections of the controller,
    of the bus and of agent records applied to constructors, booleans and
    list append. *)
Ltac msimpl :=
  unfold with_trace, with_agents, with_message_bus, with_tasks,
    with_task_queue, with_resource_monitor, with_running in *;
  cbn [fst snd config agents tasks task_queue message_bus resource_monitor
       running trace negb orb andb app option_map AgentStatus.eqb
       AgentInfo.name AgentInfo.manifest_path AgentInfo.status AgentInfo.pid
       AgentInfo.priority AgentInfo.last_health_check AgentInfo.restart_count
       AgentInfo.resource_usage AgentInfo.set_status AgentInfo.set_pid
       AgentInfo.set_last_health_check AgentInfo.set_restart_count
       AgentInfo.set_resource_usage MessageBus.messages
       MessageBus.subscribers MessageBus.running MessageBus.publish] in *.

Ltac run_monad :=
  unfold exec, popen, call, log, publish, update_agent, load_manifest in *;
  unfold emit in *;
  unfold modify, gets, try_except, raise, ret, bind in *;
  msimpl.

Ltac run_health :=
  unfold health_check_agent, get_agent_resources,
    ResourceMonitor.get_agent_resources in *; run_monad.

(** * Properties *)

(** ** Dictionaries *)

Module PyDictFacts.
Import PyDict.

Section Facts.
Context {V : Type}.
Implicit Types (d : PyDict.t V) (k : string) (f g : V -> V).

Lemma get_alter_eq f k d : get k (alter f k d) = option_map f (get k d).
Proof.
  induction d as [|[k' v] d IH]; simpl; [reflexivity|].
  destruct (String.eqb k k') eqn:E; simpl; rewrite E; auto.
Qed.

Lemma get_alter_ne f k k' d : k <> k' -> get k' (alter f k d) = get k' d.
Proof.
  intros Hne. induction d as [|[k0 v] d IH]; simpl; [reflexivity|].
  destruct (String.eqb k k0) eqn:E; simpl.
  - apply String.eqb_eq in E. subst k0.
    destruct (String.eqb k' k) eqn:E'; [|reflexivity].
    apply String.eqb_eq in E'. congruence.
  - destruct (String.eqb k' k0); auto.
Qed.

Lemma get_alter f k k' d :
  get k' (alter f k d)
  = if String.eqb k k' then option_map f (get k' d) else get k' d.
Proof.
  destruct (String.eqb k k') eqn:E.
  - apply String.eqb_eq in E. subst. apply get_alter_eq.
  - apply String.eqb_neq in E. now apply get_alter_ne.
Qed.

Lemma alter_alter f g k d :
  alter f k (alter g k d) = alter (fun v => f (g v)) k d.
Proof.
  induction d as [|[k' v] d IH]; simpl; [reflexivity|].
  destruct (String.eqb k k') eqn:E; simpl; rewrite E; congruence.
Qed.

Lemma alter_ext f g k d :
  (forall v, get k d = Some v -> f v = g v) -> alter f k d = alter g k d.
Proof.
  induction d as [|[k' v] d IH]; simpl; intros H; [reflexivity|].
  destruct (String.eqb k k') eqn:E.
  - rewrite (H v); auto.
  - rewrite IH; auto.
Qed.

Lemma alter_fixed f k d :
  (forall v, get k d = Some v -> f v = v) -> alter f k d = d.
Proof.
  induction d as [|[k' v] d IH]; simpl; intros H; [reflexivity|].
  destruct (String.eqb k k') eqn:E.
  - rewrite (H v); auto.
  - rewrite IH; auto.
Qed.

Lemma keys_alter f k d : keys (alter f k d) = keys d.
Proof.
  unfold keys. induction d as [|[k' v] d IH]; simpl; [reflexivity|].
  destruct (String.eqb k k'); simpl; congruence.
Qed.

Lemma get_set_eq k (v : V) d : get k (set k v d) = Some v.
Proof.
  induction d as [|[k' v'] d IH]; simpl.
  - now rewrite String.eqb_refl.
  - destruct (String.eqb k k') eqn:E; simpl; rewrite E; auto.
Qed.

Lemma get_set_ne k k' (v : V) d : k <> k' -> get k' (set k v d) = get k' d.
Proof.
  intros Hne. induction d as [|[k0 v0] d IH]; simpl.
  - destruct (String.eqb k' k) eqn:E; [|reflexivity].
    apply String.eqb_eq in E. congruence.
  - destruct (String.eqb k k0) eqn:E; simpl.
    + apply String.eqb_eq in E. subst k0.
      destruct (String.eqb k' k) eqn:E'; [|reflexivity].
      apply String.eqb_eq in E'. congruence.
    + destruct (String.eqb k' k0); auto.
Qed.

(** Assigning to a key that is present keeps the order of the keys;
    a new key goes to the end. *)
Lemma keys_set k (v : V) d :
  keys (set k v d) = if mem k d then keys d else keys d ++ [k].
Proof.
  unfold keys, mem. induction d as [|[k' v'] d IH]; simpl; [reflexivity|].
  destruct (String.eqb k k') eqn:E; simpl; [reflexivity|].
  rewrite IH. now destruct (get k d).
Qed.

End Facts.
End PyDictFacts.

(** ** The registry under the lifecycle operations *)

Lemma registry_all_alter P f k d :
  registry_all P d ->
  (forall a, PyDict.get k d = Some a -> P a -> P (f a)) ->
  registry_all P (PyDict.alter f k d).
Proof.
  intros Hall Hf n a. rewrite PyDictFacts.get_alter.
  destruct (String.eqb k n) eqn:E; [|apply Hall].
  apply String.eqb_eq in E. subst n.
  destruct (PyDict.get k d) as [a0|] eqn:G; msimpl; [|discriminate].
  intros [= <-]. apply Hf; [reflexivity|]. now apply (Hall k).
Qed.

Lemma registry_all_set P k v d :
  registry_all P d -> P v -> registry_all P (PyDict.set k v d).
Proof.
  intros Hall Hv n a. destruct (String.eqb k n) eqn:E.
  - apply String.eqb_eq in E. subst n. rewrite PyDictFacts.get_set_eq.
    now intros [= <-].
  - apply String.eqb_neq in E. rewrite PyDictFacts.get_set_ne by assumption.
    apply Hall.
Qed.

Lemma register_agent_agents name path m c :
  agents (exec (register_agent name path m) c)
  = match m with
    | ManifestLoaded p => PyDict.set name (fresh_agent name path p) (agents c)
    | ManifestError _ => agents c
    end.
Proof. destruct m as [[p|]|e]; reflexivity. Qed.

Lemma start_agent_agents name w c :
  agents (exec (start_agent name w) c)
  = PyDict.alter (start_effect w) name (agents c).
Proof.
  unfold start_agent. run_monad.
  destruct (PyDict.get name (agents c)) as [agent|] eqn:G; msimpl.
  - assert (Hext : forall f, (f agent = start_effect w agent) ->
              PyDict.alter f name (agents c)
              = PyDict.alter (start_effect w) name (agents c)).
    { intros f Hf. apply PyDictFacts.alter_ext. intros v Hv.
      rewrite G in Hv. now injection Hv as <-. }
    destruct (AgentStatus.eqb (AgentInfo.status agent) AgentStatus.RUNNING)
      eqn:Es; msimpl.
    + rewrite <- (Hext (fun a => a)).
      * symmetry. now apply PyDictFacts.alter_fixed.
      * unfold start_effect. now rewrite Es.
    + destruct (script_exists w) eqn:Ex; msimpl.
      * destruct (spawn w) as [pid|e] eqn:Ep; msimpl;
          rewrite !PyDictFacts.alter_alter; apply Hext;
          unfold start_effect; rewrite Es, Ex, Ep; reflexivity.
      * rewrite !PyDictFacts.alter_alter; apply Hext;
          unfold start_effect; rewrite Es, Ex; reflexivity.
  - symmetry. apply PyDictFacts.alter_fixed. intros v Hv. congruence.
Qed.

Lemma pid_truthy_inv agent :
  AgentInfo.pid_truthy agent = true ->
  exists p, AgentInfo.pid agent = Some p /\ p <> 0.
Proof.
  unfold AgentInfo.pid_truthy. destruct (AgentInfo.pid agent) as [p|];
    [|discriminate].
  intros H. exists p. split; [reflexivity|].
  destruct (Z.eqb_spec p 0); [discriminate|assumption].
Qed.

(** [stop_agent] on a running agent, in full. *)
Lemma stop_agent_running name w c agent p :
  PyDict.get name (agents c) = Some agent ->
  AgentInfo.status agent = AgentStatus.RUNNING ->
  AgentInfo.pid agent = Some p -> p <> 0 ->
  stop_agent name w c
  = match stop_error w with
    | Some e =>
        (Val false,
         with_trace
           (fun t => t ++ stop_calls p w
                       ++ [Log ERROR ("Error stopping agent " +:+ name
                                      +:+ ": " +:+ e)])
           (with_agents
              (PyDict.alter (AgentInfo.set_status AgentStatus.STOPPING) name)
              c))
    | None =>
        (Val true,
         with_trace
           (fun t => t ++ stop_calls p w
                       ++ [Log INFO ("Stopped agent: " +:+ name)])
           (with_message_bus
              (MessageBus.publish "agent.status"
                 [("agent", VStr name); ("status", VStr "stopped")])
              (with_agents
                 (PyDict.alter
                    (fun a => AgentInfo.set_pid None
                                (AgentInfo.set_status AgentStatus.STOPPED a))
                    name)
                 c)))
    end.
Proof.
  intros G Hs Hp Hnz.
  unfold stop_agent, stop_error, stop_calls, AgentInfo.pid_truthy.
  run_monad. rewrite G, Hs, Hp. msimpl.
  destruct (Z.eqb_spec p 0) as [?|_]; [contradiction|]. msimpl.
  destruct (lookup w), (terminate w), (wait w), (kill w); msimpl;
    rewrite ?PyDictFacts.alter_alter, <- ?app_assoc; reflexivity.
Qed.

Lemma stop_agent_agents name w c :
  agents (exec (stop_agent name w) c)
  = PyDict.alter (stop_effect w) name (agents c).
Proof.
  destruct (PyDict.get name (agents c)) as [agent|] eqn:G.
  - assert (Hext : forall f, (f agent = stop_effect w agent) ->
              PyDict.alter f name (agents c)
              = PyDict.alter (stop_effect w) name (agents c)).
    { intros f Hf. apply PyDictFacts.alter_ext. intros v Hv.
      rewrite G in Hv. now injection Hv as <-. }
    destruct (negb (AgentStatus.eqb (AgentInfo.status agent) AgentStatus.RUNNING)
              || negb (AgentInfo.pid_truthy agent)) eqn:E.
    + unfold stop_agent. run_monad. rewrite G, E. msimpl.
      rewrite <- (Hext (fun a => a)).
      * symmetry. now apply PyDictFacts.alter_fixed.
      * unfold stop_effect. now rewrite E.
    + apply orb_false_elim in E as [E1 E2].
      apply negb_false_iff in E1, E2.
      destruct (pid_truthy_inv _ E2) as (p & Hp & Hnz).
      assert (Hs : AgentInfo.status agent = AgentStatus.RUNNING)
        by (destruct (AgentInfo.status agent); (discriminate || reflexivity)).
      unfold exec. rewrite (stop_agent_running name w c agent p G Hs Hp Hnz).
      destruct (stop_error w) as [e|] eqn:Ee; msimpl; apply Hext;
        unfold stop_effect; rewrite E1, E2, Ee; reflexivity.
  - unfold stop_agent. run_monad. rewrite G. msimpl.
    symmetry. apply PyDictFacts.alter_fixed. intros v Hv. congruence.
Qed.

Lemma start_agent_returns name w c :
  exists b, fst (start_agent name w c) = Val b.
Proof.
  unfold start_agent. run_monad.
  destruct (PyDict.get name (agents c)) as [agent|]; msimpl; eauto.
  destruct (AgentStatus.eqb _ _); msimpl; eauto.
  destruct (script_exists w); msimpl; eauto.
  destruct (spawn w); msimpl; eauto.
Qed.

Lemma start_agent_config name w c :
  config (exec (start_agent name w) c) = config c.
Proof.
  unfold start_agent. run_monad.
  destruct (PyDict.get name (agents c)) as [agent|]; msimpl; auto.
  destruct (AgentStatus.eqb _ _); msimpl; auto.
  destruct (script_exists w); msimpl; auto.
  destruct (spawn w); msimpl; auto.
Qed.

Lemma start_agent_messages name w c agent :
  PyDict.get name (agents c) = Some agent ->
  MessageBus.messages (message_bus (exec (start_agent name w) c))
  = MessageBus.messages (message_bus c)
    ++ match start_spawns w agent with
       | Some pid => [started_event name pid]
       | None => []
       end.
Proof.
  intros G. unfold start_agent, start_spawns. run_monad. rewrite G. msimpl.
  destruct (AgentStatus.eqb _ _); msimpl; [now rewrite app_nil_r|].
  destruct (script_exists w); msimpl; [|now rewrite app_nil_r].
  destruct (spawn w); msimpl; [reflexivity|now rewrite app_nil_r].
Qed.

Lemma exec_bind {A B} (m : M A) (k : A -> M B) c :
  exec (bind m k) c
  = match m c with
    | (Val a, c') => exec (k a) c'
    | (Exn _, c') => c'
    end.
Proof. unfold exec, bind. now destruct (m c) as [[a|e] c']. Qed.

Lemma health_check_agent_config name w c :
  config (exec (health_check_agent name w) c) = config c.
Proof.
  run_health.
  destruct (PyDict.get name (agents c)) as [agent|]; msimpl; auto.
  destruct (_ && _); msimpl; auto.
  destruct (sample w); msimpl; auto.
  destruct (restart_enabled _); msimpl; auto.
  destruct (Z.ltb _ _); msimpl; auto.
  match goal with
  | |- context [start_agent ?n ?w ?c0] =>
      pose proof (start_agent_config n w c0) as Hc;
      pose proof (start_agent_returns n w c0) as [b Hb];
      unfold exec in Hc; destruct (start_agent n w c0) as [[r|e] c1]
  end; msimpl; auto.
Qed.

Lemma health_check_agent_agents name w c :
  agents (exec (health_check_agent name w) c)
  = PyDict.alter (health_effect (config c) w) name (agents c).
Proof.
  run_health.
  destruct (PyDict.get name (agents c)) as [agent|] eqn:G; msimpl.
  - assert (Hext : forall f, (f agent = health_effect (config c) w agent) ->
              PyDict.alter f name (agents c)
              = PyDict.alter (health_effect (config c) w) name (agents c)).
    { intros f Hf. apply PyDictFacts.alter_ext. intros v Hv.
      rewrite G in Hv. now injection Hv as <-. }
    unfold health_effect at 1 in Hext. unfold restart_due in Hext.
    destruct (_ && _) eqn:E; msimpl.
    + destruct (sample w) as [r|]; msimpl.
      * rewrite PyDictFacts.alter_alter. now apply Hext.
      * destruct (restart_enabled _); msimpl.
        -- destruct (Z.ltb _ _); msimpl.
           ++ match goal with
              | |- context [start_agent ?n ?w ?c0] =>
                  pose proof (start_agent_agents n w c0) as Ha;
                  unfold exec in Ha;
                  destruct (start_agent n w c0) as [[r|e] c1]
              end; msimpl; rewrite Ha, !PyDictFacts.alter_alter;
                now apply Hext.
           ++ now apply Hext.
        -- now apply Hext.
    + rewrite <- (Hext (fun a => a)) by reflexivity.
      symmetry. now apply PyDictFacts.alter_fixed.
  - symmetry. apply PyDictFacts.alter_fixed. intros v Hv. congruence.
Qed.

(** ** Invariants of the monad's combinators *)

Section Preservation.
Variable I : MasterController -> Prop.

Lemma preserves_ret {A} (a : A) : preserves I (ret a).
Proof. intros c H. exact H. Qed.

Lemma preserves_raise {A} e : preserves I (@raise A e).
Proof. intros c H. exact H. Qed.

Lemma preserves_gets {A} (f : MasterController -> A) : preserves I (gets f).
Proof. intros c H. exact H. Qed.

Lemma preserves_modify f :
  (forall c, I c -> I (f c)) -> preserves I (modify f).
Proof. intros Hf c H. apply Hf, H. Qed.

Lemma preserves_bind {A B} (m : M A) (k : A -> M B) :
  preserves I m -> (forall a, preserves I (k a)) -> preserves I (bind m k).
Proof.
  intros Hm Hk c H. rewrite exec_bind. specialize (Hm c H). unfold exec in Hm.
  destruct (m c) as [[a|e] c']; msimpl; [now apply Hk|exact Hm].
Qed.

Lemma preserves_try_except {A} (m : M A) (h : string -> M A) :
  preserves I m -> (forall e, preserves I (h e)) ->
  preserves I (try_except m h).
Proof.
  intros Hm Hh c H. specialize (Hm c H). unfold exec, try_except in *.
  destruct (m c) as [[a|e] c']; msimpl; [exact Hm|now apply Hh].
Qed.

Lemma preserves_for_each {A} (l : list A) (body : A -> M unit) :
  (forall x, preserves I (body x)) -> preserves I (for_each l body).
Proof.
  intros Hb. induction l as [|x l IH]; msimpl.
  - apply preserves_ret.
  - apply preserves_bind; auto.
Qed.

End Preservation.

(** ** Invariants of the registry

    A property of agent records that holds of a freshly registered record
    and is kept by the net effects of [start_agent], [stop_agent] and of a
    health check holds of every record in every reachable state. *)

Section RegistryInvariant.
Variable cfg : Config.
Variable P : AgentInfo.t -> Prop.
Hypothesis P_fresh : forall name path p, P (fresh_agent name path p).
Hypothesis P_start : forall w a, P a -> P (start_effect w a).
Hypothesis P_stop : forall w a, P a -> P (stop_effect w a).
Hypothesis P_health : forall w a, P a -> P (health_effect cfg w a).

Lemma inv_frame f :
  (forall c, config (f c) = config c /\ agents (f c) = agents c) ->
  preserves (registry_inv cfg P) (modify f).
Proof.
  intros Hf. apply preserves_modify. intros c [Hc Ha].
  destruct (Hf c) as [Ec Ea]. split; [congruence|].
  rewrite Ea. exact Ha.
Qed.

Lemma inv_log level text : preserves (registry_inv cfg P) (log level text).
Proof. apply inv_frame. intros c. split; reflexivity. Qed.

Lemma inv_register_agent name path m :
  preserves (registry_inv cfg P) (register_agent name path m).
Proof.
  intros c [Hc Ha]. split.
  - destruct m as [[p|]|e]; exact Hc.
  - rewrite register_agent_agents. destruct m as [p|e]; [|exact Ha].
    apply registry_all_set; auto.
Qed.

Lemma inv_start_agent name w :
  preserves (registry_inv cfg P) (start_agent name w).
Proof.
  intros c [Hc Ha]. split.
  - now rewrite start_agent_config.
  - rewrite start_agent_agents. apply registry_all_alter; auto.
Qed.

Lemma stop_agent_config name w c :
  config (exec (stop_agent name w) c) = config c.
Proof.
  unfold stop_agent. run_monad.
  destruct (PyDict.get name (agents c)) as [agent|]; msimpl; auto.
  destruct (_ || _); msimpl; auto.
  destruct (lookup w), (terminate w), (wait w), (kill w); reflexivity.
Qed.

Lemma inv_stop_agent name w :
  preserves (registry_inv cfg P) (stop_agent name w).
Proof.
  intros c [Hc Ha]. split.
  - now rewrite stop_agent_config.
  - rewrite stop_agent_agents. apply registry_all_alter; auto.
Qed.

Lemma inv_health_check_agent name w :
  preserves (registry_inv cfg P) (health_check_agent name w).
Proof.
  intros c [Hc Ha]. split.
  - now rewrite health_check_agent_config.
  - rewrite health_check_agent_agents, Hc. apply registry_all_alter; auto.
Qed.

Lemma inv_health_check_pass w :
  preserves (registry_inv cfg P) (health_check_pass w).
Proof.
  unfold health_check_pass. apply preserves_try_except.
  - apply preserves_bind; [apply preserves_gets|]. intros registry.
    apply preserves_for_each. intros name. apply inv_health_check_agent.
  - intros e. apply inv_log.
Qed.

Lemma inv_health_check_loop ticks :
  preserves (registry_inv cfg P) (health_check_loop ticks).
Proof.
  induction ticks as [|w ticks IH]; msimpl; [apply preserves_ret|].
  apply preserves_bind; [apply preserves_gets|]. intros [|].
  - apply preserves_bind; [apply inv_health_check_pass|]. intros _. exact IH.
  - apply preserves_ret.
Qed.

Lemma inv_discover_agents l :
  preserves (registry_inv cfg P) (discover_agents l).
Proof.
  unfold discover_agents. apply preserves_bind; [apply preserves_gets|].
  intros c0. destruct l as [entries|]; [|apply inv_log].
  apply preserves_bind.
  - apply preserves_for_each. intros e. destruct (is_agent_dir e).
    + apply inv_register_agent.
    + apply preserves_ret.
  - intros _. apply preserves_bind; [apply preserves_gets|]. intros r.
    apply inv_log.
Qed.

Lemma inv_start w : preserves (registry_inv cfg P) (start w).
Proof.
  unfold start, MessageBus.start.
  apply preserves_bind; [apply inv_log|]. intros _.
  apply preserves_bind; [apply inv_frame; now split|]. intros _.
  apply preserves_bind; [apply preserves_gets|]. intros bus. msimpl.
  apply preserves_bind; [apply inv_frame; now split|]. intros _.
  apply preserves_bind; [apply inv_frame; now split|]. intros _.
  apply preserves_bind; [apply preserves_gets|]. intros c0.
  apply preserves_bind.
  { destruct (match auto_discover c0 with Some b => b | None => true end);
      [apply inv_discover_agents|apply preserves_ret]. }
  intros _. apply preserves_bind; [|intros _; apply inv_log].
  destruct (match auto_start c0 with Some b => b | None => false end);
    [|apply preserves_ret].
  apply preserves_bind; [apply preserves_gets|]. intros r.
  apply preserves_for_each. intros name.
  apply preserves_bind; [apply inv_start_agent|]. intros _.
  apply preserves_ret.
Qed.

Lemma inv_stop w : preserves (registry_inv cfg P) (stop w).
Proof.
  unfold stop, MessageBus.stop.
  apply preserves_bind; [apply inv_log|]. intros _.
  apply preserves_bind; [apply inv_frame; now split|]. intros _.
  apply preserves_bind; [apply preserves_gets|]. intros r.
  apply preserves_bind.
  { apply preserves_for_each. intros name.
    apply preserves_bind; [apply inv_stop_agent|]. intros _.
    apply preserves_ret. }
  intros _. apply preserves_bind; [apply preserves_gets|]. intros bus. msimpl.
  apply preserves_bind; [apply inv_frame; now split|]. intros _.
  apply preserves_bind; [apply inv_frame; now split|]. intros _.
  apply inv_log.
Qed.

Lemma inv_submit_task agent action params priority w :
  preserves (registry_inv cfg P) (submit_task agent action params priority w).
Proof. intros c H. exact H. Qed.

Lemma inv_step o c : registry_inv cfg P c -> registry_inv cfg P (step o c).
Proof.
  destruct o; msimpl.
  - apply inv_register_agent.
  - apply inv_discover_agents.
  - apply inv_start_agent.
  - apply inv_stop_agent.
  - apply inv_submit_task.
  - apply (inv_health_check_loop [w]).
  - apply inv_start.
  - apply inv_stop.
Qed.

Lemma inv_run ops c : registry_inv cfg P c -> registry_inv cfg P (run ops c).
Proof.
  revert c. induction ops as [|o ops IH]; intros c H; msimpl; [exact H|].
  apply IH, inv_step, H.
Qed.

Lemma inv_reachable c : reachable cfg c -> registry_inv cfg P c.
Proof.
  intros [ops ->]. apply inv_run. split; [reflexivity|].
  intros n a. discriminate.
Qed.

End RegistryInvariant.

(** ** Reachable states *)

Lemma run_app ops1 ops2 c : run (ops1 ++ ops2) c = run ops2 (run ops1 c).
Proof. unfold run. apply fold_left_app. Qed.

Lemma reachable_run cfg ops : reachable cfg (run ops (init cfg)).
Proof. now exists ops. Qed.

Lemma reachable_step cfg o c : reachable cfg c -> reachable cfg (step o c).
Proof.
  intros [ops ->]. exists (ops ++ [o]). now rewrite run_app.
Qed.

Lemma reachable_scanner_running cfg : reachable cfg (scanner_running cfg).
Proof. apply reachable_run. Qed.

Lemma reachable_scanner_died cfg w : reachable cfg (scanner_died cfg w).
Proof. apply reachable_step, reachable_run. Qed.

(** ** start_agent on a running agent *)

(** C8. [start_agent] on a registered agent whose status is [RUNNING]
    returns [True] and changes nothing but the log, where it leaves one
    warning: no process is spawned (no [Popen] enters the trace), nothing is
    published and the registry, hence the agent's record, is as before. *)
Theorem start_agent_running_is_noop name w c agent :
  PyDict.get name (agents c) = Some agent ->
  AgentInfo.status agent = AgentStatus.RUNNING ->
  start_agent name w c
  = (Val true,
     with_trace
       (fun t => t ++ [Log WARNING ("Agent already running: " +:+ name)]) c)
  /\ PyDict.get name (agents (exec (start_agent name w) c)) = Some agent.
Proof.
  intros G Hs. unfold start_agent. run_monad. rewrite G, Hs. msimpl.
  split; [reflexivity|exact G].
Qed.

Lemma start_agent_running_is_noop_witness :
  PyDict.get "scanner" (agents (scanner_running manual_config))
  = Some scanner_record
  /\ AgentInfo.status scanner_record = AgentStatus.RUNNING
  /\ start_agent "scanner" (spawn_ok 5000 "2024-01-01T00:05:00")
       (scanner_running manual_config)
     = (Val true,
        with_trace
          (fun t => t ++ [Log WARNING "Agent already running: scanner"])
          (scanner_running manual_config)).
Proof.
  split; [reflexivity|]. split; [reflexivity|].
  apply (start_agent_running_is_noop "scanner"
           (spawn_ok 5000 "2024-01-01T00:05:00")
           (scanner_running manual_config) scanner_record);
    reflexivity.
Defined.

(** ** stop_agent *)

Lemma stop_agent_result name w c agent :
  PyDict.get name (agents c) = Some agent ->
  AgentInfo.status agent = AgentStatus.RUNNING ->
  AgentInfo.pid_truthy agent = true ->
  fst (stop_agent name w c)
  = Val (match stop_error w with Some _ => false | None => true end).
Proof.
  intros G Hs Ht. destruct (pid_truthy_inv _ Ht) as (p & Hp & Hnz).
  rewrite (stop_agent_running name w c agent p G Hs Hp Hnz).
  now destruct (stop_error w).
Qed.

(** C10. A [stop_agent] that returns [True] for a running agent with a pid
    leaves a record that differs from the old one in [status] (now
    [STOPPED]) and [pid] (now [None]) only, and leaves the records of the
    other agents alone. *)
Theorem stop_agent_success_frame name w c agent :
  PyDict.get name (agents c) = Some agent ->
  AgentInfo.status agent = AgentStatus.RUNNING ->
  AgentInfo.pid_truthy agent = true ->
  fst (stop_agent name w c) = Val true ->
  (exists agent',
     PyDict.get name (agents (exec (stop_agent name w) c)) = Some agent'
     /\ AgentInfo.status agent' = AgentStatus.STOPPED
     /\ AgentInfo.pid agent' = None
     /\ AgentInfo.name agent' = AgentInfo.name agent
     /\ AgentInfo.manifest_path agent' = AgentInfo.manifest_path agent
     /\ AgentInfo.priority agent' = AgentInfo.priority agent
     /\ AgentInfo.restart_count agent' = AgentInfo.restart_count agent
     /\ AgentInfo.last_health_check agent' = AgentInfo.last_health_check agent
     /\ AgentInfo.resource_usage agent' = AgentInfo.resource_usage agent)
  /\ (forall other, other <> name ->
        PyDict.get other (agents (exec (stop_agent name w) c))
        = PyDict.get other (agents c)).
Proof.
  intros G Hs Ht Hr.
  rewrite (stop_agent_result name w c agent G Hs Ht) in Hr.
  destruct (stop_error w) as [e|] eqn:Ee; [discriminate|].
  rewrite stop_agent_agents. split.
  - exists (stop_effect w agent). rewrite PyDictFacts.get_alter_eq, G.
    cbn [option_map]. unfold stop_effect. rewrite Hs, Ht, Ee. msimpl.
    repeat split.
  - intros other Hne. apply PyDictFacts.get_alter_ne. congruence.
Qed.

Lemma stop_agent_success_frame_witness :
  (PyDict.get "scanner" (agents (scanner_running manual_config))
   = Some scanner_record
   /\ fst (stop_agent "scanner" stops_cleanly (scanner_running manual_config))
      = Val true)
  /\ (forall other, other <> "scanner" ->
        PyDict.get other
          (agents (exec (stop_agent "scanner" stops_cleanly)
                     (scanner_running manual_config)))
        = PyDict.get other (agents (scanner_running manual_config))).
Proof.
  split; [split; reflexivity|].
  exact (proj2 (stop_agent_success_frame "scanner" stops_cleanly
                  (scanner_running manual_config) scanner_record
                  eq_refl eq_refl eq_refl eq_refl)).
Defined.

(** C3 (as the code has it). When looking up, terminating, waiting for or
    killing the process raises, [stop_agent] logs the error and returns
    [False]: the record does not reach [STOPPED]. It keeps its pid and the
    status [STOPPING] it was given before the first call, and no event is
    published. *)
Theorem stop_agent_error_not_stopped name w c agent e :
  PyDict.get name (agents c) = Some agent ->
  AgentInfo.status agent = AgentStatus.RUNNING ->
  AgentInfo.pid_truthy agent = true ->
  stop_error w = Some e ->
  fst (stop_agent name w c) = Val false
  /\ PyDict.get name (agents (exec (stop_agent name w) c))
     = Some (AgentInfo.set_status AgentStatus.STOPPING agent)
  /\ (exists calls,
        trace (exec (stop_agent name w) c)
        = trace c ++ calls
            ++ [Log ERROR ("Error stopping agent " +:+ name +:+ ": " +:+ e)])
  /\ message_bus (exec (stop_agent name w) c) = message_bus c.
Proof.
  intros G Hs Ht He. destruct (pid_truthy_inv _ Ht) as (p & Hp & Hnz).
  unfold exec. rewrite (stop_agent_running name w c agent p G Hs Hp Hnz), He.
  msimpl. repeat split.
  - now rewrite PyDictFacts.get_alter_eq, G.
  - now exists (stop_calls p w).
Qed.

Lemma stop_agent_error_not_stopped_witness :
  PyDict.get "scanner" (agents (scanner_running manual_config))
  = Some scanner_record
  /\ stop_error terminate_denied = Some "psutil.AccessDenied"
  /\ fst (stop_agent "scanner" terminate_denied
            (scanner_running manual_config)) = Val false.
Proof.
  split; [reflexivity|]. split; [reflexivity|].
  exact (proj1 (stop_agent_error_not_stopped "scanner" terminate_denied
                  (scanner_running manual_config) scanner_record
                  "psutil.AccessDenied" eq_refl eq_refl eq_refl eq_refl)).
Defined.

(** C3 as stated fails: [terminate()] raises for the running agent
    [scanner], and the record is left in [STOPPING] with its pid, not in
    [STOPPED]. *)
Lemma stop_agent_error_leaves_stopping :
  PyDict.get "scanner" (agents (scanner_running manual_config))
  = Some scanner_record
  /\ AgentInfo.status scanner_record = AgentStatus.RUNNING
  /\ AgentInfo.pid scanner_record = Some 4242
  /\ terminate terminate_denied = Raises "psutil.AccessDenied"
  /\ stop_agent "scanner" terminate_denied (scanner_running manual_config)
     = (Val false,
        with_trace
          (fun t => t ++ [PsProcess 4242; Terminate 4242;
                          Log ERROR
                            "Error stopping agent scanner: psutil.AccessDenied"])
          (with_agents
             (fun _ => [("scanner",
                         AgentInfo.set_status AgentStatus.STOPPING
                           scanner_record)])
             (scanner_running manual_config)))
  /\ AgentInfo.status
       (AgentInfo.set_status AgentStatus.STOPPING scanner_record)
     <> AgentStatus.STOPPED.
Proof. repeat apply conj; try (vm_compute; reflexivity). discriminate. Qed.

(** ** register_agent *)

(** C7 (as the code has it). With a readable manifest, [register_agent]
    stores a fresh record with status [STOPPED] under [name], whether or not
    the name is registered already: an existing record is replaced, there
    is no duplicate check. The call returns normally, logs the
    registration and leaves the records of other names alone. *)
Theorem register_agent_stores_fresh_record name path p c :
  register_agent name path (ManifestLoaded p) c
  = (Val tt,
     with_trace (fun t => t ++ [Log INFO ("Registered agent: " +:+ name)])
       (with_agents (PyDict.set name (fresh_agent name path p)) c))
  /\ PyDict.get name
       (agents (exec (register_agent name path (ManifestLoaded p)) c))
     = Some (fresh_agent name path p)
  /\ AgentInfo.status (fresh_agent name path p) = AgentStatus.STOPPED
  /\ (forall other, other <> name ->
        PyDict.get other
          (agents (exec (register_agent name path (ManifestLoaded p)) c))
        = PyDict.get other (agents c)).
Proof.
  assert (E : register_agent name path (ManifestLoaded p) c
              = (Val tt,
                 with_trace
                   (fun t => t ++ [Log INFO ("Registered agent: " +:+ name)])
                   (with_agents (PyDict.set name (fresh_agent name path p)) c)))
    by (destruct p; reflexivity).
  split; [exact E|]. unfold exec. rewrite E. msimpl. split; [|split].
  - apply PyDictFacts.get_set_eq.
  - reflexivity.
  - intros other Hne. apply PyDictFacts.get_set_ne. congruence.
Qed.

(** C7 as stated fails: registering [scanner] a second time, while it
    runs as pid 4242, raises no error and replaces the record by a fresh
    one (status [STOPPED], no pid). *)
Lemma register_agent_twice_replaces :
  PyDict.get "scanner" (agents (scanner_running manual_config))
  = Some scanner_record
  /\ register_agent "scanner" "./other/scanner/manifest.yaml"
       (ManifestLoaded None) (scanner_running manual_config)
     = (Val tt,
        with_trace (fun t => t ++ [Log INFO "Registered agent: scanner"])
          (with_agents
             (fun _ => [("scanner",
                         fresh_agent "scanner" "./other/scanner/manifest.yaml"
                           None)])
             (scanner_running manual_config)))
  /\ fresh_agent "scanner" "./other/scanner/manifest.yaml" None
     <> scanner_record.
Proof. repeat apply conj; try (vm_compute; reflexivity). discriminate. Qed.

(** An unreadable manifest leaves the registry as it was. *)
Lemma register_agent_manifest_error name path e c :
  register_agent name path (ManifestError e) c
  = (Val tt,
     with_trace
       (fun t => t ++ [Log ERROR ("Error registering agent " +:+ name
                                  +:+ ": " +:+ e)]) c).
Proof. reflexivity. Qed.

(** ** The health check *)

Lemma status_start_effect w a :
  AgentInfo.status (start_effect w a)
  = match start_spawns w a with
    | Some _ => AgentStatus.RUNNING
    | None =>
        if AgentStatus.eqb (AgentInfo.status a) AgentStatus.RUNNING
        then AgentStatus.RUNNING else AgentStatus.FAILED
    end.
Proof.
  unfold start_effect, start_spawns.
  destruct (AgentStatus.eqb _ _) eqn:E.
  - destruct (AgentInfo.status a); (discriminate || reflexivity).
  - destruct (script_exists w); msimpl; [|reflexivity].
    destruct (spawn w); reflexivity.
Qed.

Lemma start_agent_trace name w c :
  exists t, trace (exec (start_agent name w) c) = trace c ++ t.
Proof.
  unfold start_agent. run_monad.
  destruct (PyDict.get name (agents c)) as [agent|]; msimpl; eauto.
  destruct (AgentStatus.eqb _ _); msimpl; eauto.
  destruct (script_exists w); msimpl; eauto.
  destruct (spawn w); msimpl; rewrite <- app_assoc; eauto.
Qed.

(** A health check that finds the process of a running agent gone and does
    not restart it: the cache entry is evicted, the warning is logged and
    the record is marked [FAILED]. Nothing else happens. *)
Lemma health_check_agent_gives_up name w c agent p :
  PyDict.get name (agents c) = Some agent ->
  AgentInfo.status agent = AgentStatus.RUNNING ->
  AgentInfo.pid agent = Some p -> p <> 0 ->
  sample w = ProcessGone ->
  restart_due (config c) agent = false ->
  exec (health_check_agent name w) c
  = with_trace
      (fun t => t ++ [Log WARNING ("Agent " +:+ name +:+ " is not running")])
      (with_agents
         (PyDict.alter (AgentInfo.set_status AgentStatus.FAILED) name)
         (with_resource_monitor
            {| ResourceMonitor.process_cache :=
                 ResourceMonitor.process_cache (resource_monitor c) ∖ {[p]} |}
            c)).
Proof.
  intros G Hs Hp Hnz Hw Hd. unfold restart_due in Hd.
  run_health. unfold AgentInfo.pid_truthy.
  rewrite G, Hs, Hp, Hw. msimpl.
  destruct (Z.eqb_spec p 0) as [?|_]; [contradiction|]. msimpl.
  destruct (restart_enabled (config c)); msimpl; [|reflexivity].
  now rewrite Hd.
Qed.

Lemma health_check_agent_messages name w c agent :
  PyDict.get name (agents c) = Some agent ->
  MessageBus.messages (message_bus (exec (health_check_agent name w) c))
  = MessageBus.messages (message_bus c)
    ++ health_events (config c) name w agent.
Proof.
  intros G. unfold health_events, restart_due. run_health. rewrite G. msimpl.
  destruct (_ && _); msimpl; [|now rewrite app_nil_r].
  destruct (sample w); msimpl; [now rewrite app_nil_r|].
  destruct (restart_enabled _); msimpl; [|now rewrite app_nil_r].
  destruct (Z.ltb _ _); msimpl; [|now rewrite app_nil_r].
  match goal with
  | |- context [start_agent ?n ?w ?c0] =>
      pose proof (start_agent_messages n w c0) as Hm;
      unfold exec in Hm; destruct (start_agent n w c0) as [[r|e] c1]
  end; msimpl.
  all: rewrite PyDictFacts.get_alter_eq, PyDictFacts.get_alter_eq, G in Hm;
    msimpl; specialize (Hm _ eq_refl); rewrite Hm; reflexivity.
Qed.

Lemma health_check_agent_trace_dead name w c agent :
  PyDict.get name (agents c) = Some agent ->
  AgentInfo.status agent = AgentStatus.RUNNING ->
  AgentInfo.pid_truthy agent = true ->
  sample w = ProcessGone ->
  exists t,
    trace (exec (health_check_agent name w) c)
    = trace c ++ Log WARNING ("Agent " +:+ name +:+ " is not running") :: t.
Proof.
  intros G Hs Ht Hw. run_health. rewrite G, Hs, Ht, Hw. msimpl.
  destruct (restart_enabled _); msimpl; [|now exists []].
  destruct (Z.ltb _ _); msimpl; [|now exists []].
  match goal with
  | |- context [start_agent ?n ?w ?c0] =>
      pose proof (start_agent_trace n w c0) as [t Ht'];
      unfold exec in Ht'; destruct (start_agent n w c0) as [[r|e] c1]
  end; msimpl; rewrite Ht', <- !app_assoc; msimpl; eauto.
Qed.

(** C6 (as the code has it). When a health check finds the process of a
    running agent gone, it logs a warning, marks the record [FAILED] and
    applies the restart policy. It publishes nothing for the failure: the
    only event that can reach the bus is the [started] event of a restart
    that spawned a process, after which the record is [RUNNING] again;
    otherwise the record is left [FAILED] and the bus is as before. *)
Theorem health_check_dead_publishes_no_failure name w c agent :
  PyDict.get name (agents c) = Some agent ->
  AgentInfo.status agent = AgentStatus.RUNNING ->
  AgentInfo.pid_truthy agent = true ->
  sample w = ProcessGone ->
  (exists t,
     trace (exec (health_check_agent name w) c)
     = trace c ++ Log WARNING ("Agent " +:+ name +:+ " is not running") :: t)
  /\ MessageBus.messages (message_bus (exec (health_check_agent name w) c))
     = MessageBus.messages (message_bus c)
       ++ (if restart_due (config c) agent then
             match start_spawns (restart w)
                     (AgentInfo.set_status AgentStatus.FAILED agent) with
             | Some pid => [started_event name pid]
             | None => []
             end
           else [])
  /\ option_map AgentInfo.status
       (PyDict.get name (agents (exec (health_check_agent name w) c)))
     = Some (if restart_due (config c) agent then
               match start_spawns (restart w)
                       (AgentInfo.set_status AgentStatus.FAILED agent) with
               | Some _ => AgentStatus.RUNNING
               | None => AgentStatus.FAILED
               end
             else AgentStatus.FAILED).
Proof.
  intros G Hs Ht Hw. split; [|split].
  - now apply (health_check_agent_trace_dead name w c agent).
  - rewrite (health_check_agent_messages name w c agent G).
    unfold health_events. now rewrite Hs, Ht, Hw.
  - rewrite health_check_agent_agents, PyDictFacts.get_alter_eq, G. msimpl.
    unfold health_effect. rewrite Hs, Ht, Hw. msimpl.
    destruct (restart_due (config c) agent); [|reflexivity].
    rewrite status_start_effect. unfold start_spawns. msimpl.
    reflexivity.
Qed.

Lemma health_check_dead_publishes_no_failure_witness :
  (PyDict.get "scanner" (agents (scanner_supervised manual_config))
   = Some scanner_record
   /\ sample (found_dead no_script "scanner") = ProcessGone)
  /\ MessageBus.messages
       (message_bus
          (exec (health_check_agent "scanner" (found_dead no_script "scanner"))
             (scanner_supervised manual_config)))
     = MessageBus.messages (message_bus (scanner_supervised manual_config))
       ++ [].
Proof.
  split; [split; reflexivity|].
  exact (proj1 (proj2 (health_check_dead_publishes_no_failure "scanner"
                         (found_dead no_script "scanner")
                         (scanner_supervised manual_config) scanner_record
                         eq_refl eq_refl eq_refl eq_refl))).
Defined.

(** C6 as stated fails: the pass that finds [scanner] dead marks it
    [FAILED] and leaves the bus queue as it was, holding the [started]
    event of the operator's start and no event for the failure. *)
Lemma health_check_dead_publishes_nothing :
  PyDict.get "scanner" (agents (scanner_supervised manual_config))
  = Some scanner_record
  /\ running (scanner_supervised manual_config) = true
  /\ PyDict.get "scanner" (agents (scanner_died manual_config no_script))
     = Some (AgentInfo.set_status AgentStatus.FAILED scanner_record)
  /\ MessageBus.messages (message_bus (scanner_died manual_config no_script))
     = MessageBus.messages (message_bus (scanner_supervised manual_config))
  /\ MessageBus.messages (message_bus (scanner_died manual_config no_script))
     = [started_event "scanner" 4242].
Proof. repeat apply conj; vm_compute; reflexivity. Qed.

(** ** The pid of a record and its status *)

Lemma lifecycle_ok_start w a : lifecycle_ok a -> lifecycle_ok (start_effect w a).
Proof.
  intros H. unfold start_effect.
  destruct (AgentStatus.eqb _ _); [exact H|].
  destruct (script_exists w); cbn [negb]; [|exact I].
  destruct (spawn w); [|exact I].
  unfold lifecycle_ok. cbn. discriminate.
Qed.

Lemma lifecycle_ok_stop w a : lifecycle_ok a -> lifecycle_ok (stop_effect w a).
Proof.
  intros H. unfold stop_effect.
  destruct (negb _ || negb _) eqn:E; [exact H|].
  apply orb_false_elim in E as [_ E]. apply negb_false_iff in E.
  destruct (pid_truthy_inv _ E) as (p & Hp & _).
  destruct (stop_error w); unfold lifecycle_ok; cbn; [|reflexivity].
  rewrite Hp. discriminate.
Qed.

Lemma lifecycle_ok_health cfg w a :
  lifecycle_ok a -> lifecycle_ok (health_effect cfg w a).
Proof.
  intros H. unfold health_effect.
  destruct (_ && _); [|exact H].
  destruct (sample w); [exact H|].
  destruct (restart_due cfg a); [|exact I].
  apply lifecycle_ok_start. exact I.
Qed.

(** C1 (as the code has it). Between two operations, in every history of
    registrations, discoveries, starts, stops, task submissions and
    health-check passes, a record whose status is not [FAILED] has a pid if
    and only if its status is one of [STARTING], [RUNNING], [STOPPING]. *)
Theorem pid_iff_active_unless_failed cfg c name agent :
  reachable cfg c ->
  PyDict.get name (agents c) = Some agent ->
  AgentInfo.status agent <> AgentStatus.FAILED ->
  (AgentInfo.pid agent <> None <-> active (AgentInfo.status agent)).
Proof.
  intros Hr G Hf.
  assert (H : lifecycle_ok agent).
  { apply (inv_reachable cfg lifecycle_ok) in Hr.
    - destruct Hr as [_ Hall]. exact (Hall name agent G).
    - intros; reflexivity.
    - apply lifecycle_ok_start.
    - apply lifecycle_ok_stop.
    - apply lifecycle_ok_health. }
  unfold lifecycle_ok, active in *.
  destruct (AgentInfo.status agent); try contradiction; split; intros H';
    auto; try congruence;
    destruct H' as [?|[?|?]]; discriminate.
Qed.

Lemma pid_iff_active_unless_failed_witness :
  (reachable manual_config (scanner_running manual_config)
   /\ PyDict.get "scanner" (agents (scanner_running manual_config))
      = Some scanner_record
   /\ AgentInfo.status scanner_record <> AgentStatus.FAILED)
  /\ (AgentInfo.pid scanner_record <> None
      <-> active (AgentInfo.status scanner_record)).
Proof.
  assert (Hr : reachable manual_config (scanner_running manual_config))
    by apply reachable_scanner_running.
  assert (Hg : PyDict.get "scanner" (agents (scanner_running manual_config))
               = Some scanner_record) by (vm_compute; reflexivity).
  assert (Hf : AgentInfo.status scanner_record <> AgentStatus.FAILED)
    by discriminate.
  split; [repeat split; assumption|].
  exact (pid_iff_active_unless_failed manual_config
           (scanner_running manual_config) "scanner" scanner_record
           Hr Hg Hf).
Defined.

(** C1 as stated fails: after the health check found [scanner] dead, its
    record is [FAILED] and still carries pid 4242. *)
Lemma failed_record_keeps_pid :
  reachable manual_config (scanner_died manual_config no_script)
  /\ PyDict.get "scanner" (agents (scanner_died manual_config no_script))
     = Some (AgentInfo.set_status AgentStatus.FAILED scanner_record)
  /\ AgentInfo.pid (AgentInfo.set_status AgentStatus.FAILED scanner_record)
     = Some 4242
  /\ AgentInfo.status (AgentInfo.set_status AgentStatus.FAILED scanner_record)
     = AgentStatus.FAILED
  /\ ~ active AgentStatus.FAILED.
Proof.
  split; [apply reachable_scanner_died|].
  repeat apply conj; try (vm_compute; reflexivity).
  intros [H|[H|H]]; discriminate.
Qed.

(** ** The restart policy *)

Lemma restart_count_start_effect w a :
  AgentInfo.restart_count (start_effect w a) = AgentInfo.restart_count a.
Proof.
  unfold start_effect. destruct (AgentStatus.eqb _ _); [reflexivity|].
  destruct (script_exists w); msimpl; [|reflexivity].
  destruct (spawn w); reflexivity.
Qed.

Lemma restart_count_stop_effect w a :
  AgentInfo.restart_count (stop_effect w a) = AgentInfo.restart_count a.
Proof.
  unfold stop_effect. destruct (_ || _); [reflexivity|].
  destruct (stop_error w); reflexivity.
Qed.

Lemma restart_count_health_effect cfg w a :
  AgentInfo.restart_count a <= max_attempts cfg ->
  AgentInfo.restart_count (health_effect cfg w a) <= max_attempts cfg.
Proof.
  intros H. unfold health_effect.
  destruct (_ && _); [|exact H].
  destruct (sample w); [exact H|].
  destruct (restart_due cfg a) eqn:E; [|exact H].
  rewrite restart_count_start_effect. msimpl.
  unfold restart_due in E. apply andb_prop in E as [_ E].
  apply Z.ltb_lt in E. lia.
Qed.

(** Every call of [start_agent] shows in the log. *)
Lemma start_agent_is_logged name w c :
  exists t level text,
    trace (exec (start_agent name w) c) = trace c ++ t ++ [Log level text].
Proof.
  unfold start_agent. run_monad.
  destruct (PyDict.get name (agents c)) as [agent|]; msimpl;
    [|now exists [], ERROR, ("Agent not found: " +:+ name)].
  destruct (AgentStatus.eqb _ _); msimpl;
    [now exists [], WARNING, ("Agent already running: " +:+ name)|].
  destruct (script_exists w); msimpl.
  - destruct (spawn w) as [pid|e]; msimpl; rewrite <- app_assoc; msimpl.
    + now eexists [_], INFO, _.
    + now eexists [_], ERROR, _.
  - now eexists [], ERROR, _.
Qed.

(** C2. With a non-negative [max_restart_attempts] (3 when the
    configuration has none), [restart_count] never exceeds it in a reachable
    state; and for a record whose count has reached it, a health check
    never calls [start_agent]: whatever it meets, it extends the trace by
    nothing or by the single warning that the agent is not running (a call
    of [start_agent] would show there), publishes nothing and leaves
    [restart_count] as it is. *)
Theorem restart_count_never_exceeds_max cfg c name agent :
  0 <= max_attempts cfg ->
  reachable cfg c ->
  PyDict.get name (agents c) = Some agent ->
  AgentInfo.restart_count agent <= max_attempts cfg
  /\ (AgentInfo.restart_count agent = max_attempts cfg ->
      forall w,
        (trace (exec (health_check_agent name w) c) = trace c
         \/ trace (exec (health_check_agent name w) c)
            = trace c ++ [Log WARNING ("Agent " +:+ name
                                       +:+ " is not running")])
        /\ message_bus (exec (health_check_agent name w) c) = message_bus c
        /\ option_map AgentInfo.restart_count
             (PyDict.get name (agents (exec (health_check_agent name w) c)))
           = Some (AgentInfo.restart_count agent)).
Proof.
  intros Hmax Hr G.
  apply (inv_reachable cfg
           (fun a => AgentInfo.restart_count a <= max_attempts cfg)) in Hr.
  - destruct Hr as [Hc Hall]. split; [exact (Hall name agent G)|].
    intros Heq w.
    assert (Hd : restart_due (config c) agent = false).
    { unfold restart_due. rewrite Hc, Heq, Z.ltb_irrefl. apply andb_false_r. }
    unfold restart_due in Hd. run_health. rewrite G. msimpl.
    destruct (AgentStatus.eqb (AgentInfo.status agent) AgentStatus.RUNNING
              && AgentInfo.pid_truthy agent); msimpl; [|rewrite G; auto].
    destruct (sample w); msimpl.
    + rewrite !PyDictFacts.get_alter_eq, G. auto.
    + destruct (restart_enabled (config c)); msimpl;
        [rewrite Hd|]; msimpl; rewrite PyDictFacts.get_alter_eq, G; auto.
  - intros; msimpl; exact Hmax.
  - intros w a. now rewrite restart_count_start_effect.
  - intros w a. now rewrite restart_count_stop_effect.
  - intros w a. apply restart_count_health_effect.
Qed.

Lemma restart_count_never_exceeds_max_witness :
  (0 <= max_attempts one_restart_config
   /\ reachable one_restart_config
        (scanner_died one_restart_config (spawn_ok 4243 "2024-01-01T00:01:01"))
   /\ PyDict.get "scanner"
        (agents (scanner_died one_restart_config
                   (spawn_ok 4243 "2024-01-01T00:01:01")))
      = Some scanner_restarted_record)
  /\ AgentInfo.restart_count scanner_restarted_record
     <= max_attempts one_restart_config.
Proof.
  assert (H0 : 0 <= max_attempts one_restart_config) by (vm_compute; discriminate).
  assert (Hr : reachable one_restart_config
                 (scanner_died one_restart_config
                    (spawn_ok 4243 "2024-01-01T00:01:01")))
    by apply reachable_scanner_died.
  assert (Hg : PyDict.get "scanner"
                 (agents (scanner_died one_restart_config
                            (spawn_ok 4243 "2024-01-01T00:01:01")))
               = Some scanner_restarted_record) by (vm_compute; reflexivity).
  split; [repeat split; assumption|].
  exact (proj1 (restart_count_never_exceeds_max one_restart_config
                  (scanner_died one_restart_config
                     (spawn_ok 4243 "2024-01-01T00:01:01"))
                  "scanner" scanner_restarted_record H0 Hr Hg)).
Defined.

(** The crash scenarios of the specification, with the default limit of
    three restarts: after the first detected death the agent runs again
    with [restart_count = 1]; after the fourth it stays [FAILED] with
    [restart_count = 3] and nothing more is spawned. *)
Example crash_and_exhaustion :
  let again := found_dead (spawn_ok 4243 "2024-01-01T00:01:01") in
  let c1 := step (Tick again) (scanner_supervised default_config) in
  let c4 := step (Tick again) (step (Tick again) (step (Tick again) c1)) in
  option_map (fun a => (AgentInfo.status a, AgentInfo.restart_count a))
    (PyDict.get "scanner" (agents c1)) = Some (AgentStatus.RUNNING, 1)
  /\ option_map (fun a => (AgentInfo.status a, AgentInfo.restart_count a))
       (PyDict.get "scanner" (agents c4)) = Some (AgentStatus.FAILED, 3)
  /\ length (List.filter
               (fun e => match e with Popen _ _ => true | _ => false end)
               (trace c4)) = 4%nat.
Proof. vm_compute. repeat split. Qed.

(** ** The task queue *)

Module PriorityQueueFacts.
Import PriorityQueue.

Lemma string_gt_lt a b :
  String_as_OT.compare a b = Gt -> String_as_OT.lt b a.
Proof.
  destruct (String_as_OT.compare_spec a b) as [?|?|Hlt]; try discriminate.
  intros _. exact Hlt.
Qed.

Lemma string_le_cases a b :
  String_as_OT.compare a b <> Gt -> a = b \/ String_as_OT.lt a b.
Proof.
  destruct (String_as_OT.compare_spec a b) as [Heq|Hlt|Hgt]; auto.
  intros Hne. now contradiction Hne.
Qed.

Lemma string_le_trans a b c :
  String_as_OT.compare a b <> Gt -> String_as_OT.compare b c <> Gt ->
  String_as_OT.compare a c <> Gt.
Proof.
  intros Hab Hbc Hac. apply string_gt_lt in Hac.
  apply string_le_cases in Hab, Hbc.
  assert (Hirr : forall s, ~ String_as_OT.lt s s)
    by exact (@StrictOrder_Irreflexive _ _ String_as_OT.lt_strorder).
  assert (Htr : forall s1 s2 s3, String_as_OT.lt s1 s2 ->
                  String_as_OT.lt s2 s3 -> String_as_OT.lt s1 s3)
    by exact (@StrictOrder_Transitive _ _ String_as_OT.lt_strorder).
  destruct Hab as [->|Hab], Hbc as [->|Hbc].
  - exact (Hirr _ Hac).
  - exact (Hirr _ (Htr _ _ _ Hbc Hac)).
  - exact (Hirr _ (Htr _ _ _ Hab Hac)).
  - exact (Hirr _ (Htr _ _ _ Hab (Htr _ _ _ Hbc Hac))).
Qed.

Lemma leb_before x y : leb x y = true <-> before x y.
Proof.
  unfold leb, cmp, before. destruct x as [p i], y as [q j]. simpl.
  destruct (Z.compare_spec p q) as [->|Hlt|Hgt].
  - split.
    + intros H. right. split; [reflexivity|].
      intros E. rewrite E in H. discriminate.
    + intros [H|[_ H]]; [lia|]. now destruct (String_as_OT.compare i j).
  - split; [now left|reflexivity].
  - split; [discriminate|]. intros [H|[H _]]; lia.
Qed.

Lemma before_total x y : leb x y = false -> before y x.
Proof.
  unfold leb, cmp, before. destruct x as [p i], y as [q j]. simpl.
  destruct (Z.compare_spec p q) as [->|Hlt|Hgt].
  - intros H. right. split; [reflexivity|].
    destruct (String_as_OT.compare i j) eqn:E; try discriminate.
    apply string_gt_lt in E. unfold String_as_OT.lt in E. congruence.
  - discriminate.
  - now left.
Qed.

Lemma before_trans x y z : before x y -> before y z -> before x z.
Proof.
  unfold before. intros [H1|[H1 S1]] [H2|[H2 S2]]; try (left; lia).
  right. split; [lia|]. eapply string_le_trans; eassumption.
Qed.

Lemma put_permutation e q : Permutation (put e q) (e :: q).
Proof.
  induction q as [|x q IH]; simpl; [reflexivity|].
  destruct (leb x e); [|reflexivity].
  rewrite IH. apply perm_swap.
Qed.

Lemma put_sorted e q :
  StronglySorted before q -> StronglySorted before (put e q).
Proof.
  induction 1 as [|x q Hq IH Hx]; simpl.
  - constructor; constructor.
  - destruct (leb x e) eqn:E.
    + constructor; [exact IH|].
      eapply Permutation_Forall; [symmetry; apply put_permutation|].
      constructor; [now apply leb_before|exact Hx].
    + apply before_total in E. constructor; [now constructor|].
      constructor; [exact E|].
      eapply List.Forall_impl; [|exact Hx]. intros y Hy.
      eapply before_trans; eassumption.
Qed.

Lemma drain_all q : drain (length q) q = q.
Proof. induction q as [|x q IH]; simpl; congruence. Qed.

End PriorityQueueFacts.

Lemma task_queue_start_agent name w c :
  task_queue (exec (start_agent name w) c) = task_queue c.
Proof.
  unfold start_agent. run_monad.
  destruct (PyDict.get name (agents c)) as [agent|]; msimpl; auto.
  destruct (AgentStatus.eqb _ _); msimpl; auto.
  destruct (script_exists w); msimpl; auto.
  destruct (spawn w); msimpl; auto.
Qed.

Lemma task_queue_stop_agent name w c :
  task_queue (exec (stop_agent name w) c) = task_queue c.
Proof.
  unfold stop_agent. run_monad.
  destruct (PyDict.get name (agents c)) as [agent|]; msimpl; auto.
  destruct (_ || _); msimpl; auto.
  destruct (lookup w), (terminate w), (wait w), (kill w); reflexivity.
Qed.

Lemma task_queue_health_check_agent name w c :
  task_queue (exec (health_check_agent name w) c) = task_queue c.
Proof.
  run_health.
  destruct (PyDict.get name (agents c)) as [agent|]; msimpl; auto.
  destruct (_ && _); msimpl; auto.
  destruct (sample w); msimpl; auto.
  destruct (restart_enabled _); msimpl; auto.
  destruct (Z.ltb _ _); msimpl; auto.
  match goal with
  | |- context [start_agent ?n ?w ?c0] =>
      pose proof (task_queue_start_agent n w c0) as Hc;
      unfold exec in Hc; destruct (start_agent n w c0) as [[r|e] c1]
  end; msimpl; auto.
Qed.

Section TaskQueueFrame.
Variable q : PriorityQueue.t.

Lemma queue_frame f :
  (forall c, task_queue (f c) = task_queue c) -> preserves (queue_is q) (modify f).
Proof. intros Hf. apply preserves_modify. unfold queue_is. congruence. Qed.

Lemma queue_start_agent name w : preserves (queue_is q) (start_agent name w).
Proof. intros c H. unfold queue_is. now rewrite task_queue_start_agent. Qed.

Lemma queue_stop_agent name w : preserves (queue_is q) (stop_agent name w).
Proof. intros c H. unfold queue_is. now rewrite task_queue_stop_agent. Qed.

Lemma queue_register_agent name path m :
  preserves (queue_is q) (register_agent name path m).
Proof. intros c H. destruct m as [[p|]|e]; exact H. Qed.

Lemma queue_health_check_loop ticks :
  preserves (queue_is q) (health_check_loop ticks).
Proof.
  induction ticks as [|w ticks IH]; msimpl; [apply preserves_ret|].
  apply preserves_bind; [apply preserves_gets|]. intros [|];
    [|apply preserves_ret].
  apply preserves_bind; [|intros _; exact IH].
  apply preserves_try_except; [|intros e; now apply queue_frame].
  apply preserves_bind; [apply preserves_gets|]. intros registry.
  apply preserves_for_each. intros name c H. unfold queue_is.
  now rewrite task_queue_health_check_agent.
Qed.

Lemma queue_discover_agents l : preserves (queue_is q) (discover_agents l).
Proof.
  unfold discover_agents. apply preserves_bind; [apply preserves_gets|].
  intros c0. destruct l as [entries|]; [|now apply queue_frame].
  apply preserves_bind.
  - apply preserves_for_each. intros e. destruct (is_agent_dir e).
    + apply queue_register_agent.
    + apply preserves_ret.
  - intros _. apply preserves_bind; [apply preserves_gets|]. intros r.
    now apply queue_frame.
Qed.

Lemma queue_start w : preserves (queue_is q) (start w).
Proof.
  unfold start, MessageBus.start.
  apply preserves_bind; [now apply queue_frame|]. intros _.
  apply preserves_bind; [now apply queue_frame|]. intros _.
  apply preserves_bind; [apply preserves_gets|]. intros bus. msimpl.
  apply preserves_bind; [now apply queue_frame|]. intros _.
  apply preserves_bind; [now apply queue_frame|]. intros _.
  apply preserves_bind; [apply preserves_gets|]. intros c0.
  apply preserves_bind.
  { destruct (match auto_discover c0 with Some b => b | None => true end);
      [apply queue_discover_agents|apply preserves_ret]. }
  intros _. apply preserves_bind; [|intros _; now apply queue_frame].
  destruct (match auto_start c0 with Some b => b | None => false end);
    [|apply preserves_ret].
  apply preserves_bind; [apply preserves_gets|]. intros r.
  apply preserves_for_each. intros name.
  apply preserves_bind; [apply queue_start_agent|]. intros _.
  apply preserves_ret.
Qed.

Lemma queue_stop w : preserves (queue_is q) (stop w).
Proof.
  unfold stop, MessageBus.stop.
  apply preserves_bind; [now apply queue_frame|]. intros _.
  apply preserves_bind; [now apply queue_frame|]. intros _.
  apply preserves_bind; [apply preserves_gets|]. intros r.
  apply preserves_bind.
  { apply preserves_for_each. intros name.
    apply preserves_bind; [apply queue_stop_agent|]. intros _.
    apply preserves_ret. }
  intros _. apply preserves_bind; [apply preserves_gets|]. intros bus. msimpl.
  apply preserves_bind; [now apply queue_frame|]. intros _.
  apply preserves_bind; [now apply queue_frame|]. intros _.
  now apply queue_frame.
Qed.

End TaskQueueFrame.

(** Only [submit_task] touches the queue. *)
Lemma task_queue_step o c :
  task_queue (step o c)
  = match o with
    | SubmitTask agent action _ priority w =>
        PriorityQueue.put (- priority, task_id_of agent action (time_ms w))
          (task_queue c)
    | _ => task_queue c
    end.
Proof.
  destruct o; msimpl; try reflexivity.
  - now apply (queue_register_agent (task_queue c)).
  - now apply (queue_discover_agents (task_queue c)).
  - apply task_queue_start_agent.
  - apply task_queue_stop_agent.
  - now apply (queue_health_check_loop (task_queue c) [w]).
  - now apply (queue_start (task_queue c)).
  - now apply (queue_stop (task_queue c)).
Qed.

Lemma task_queue_run ops c :
  StronglySorted before (task_queue c) ->
  StronglySorted before (task_queue (run ops c))
  /\ Permutation (task_queue (run ops c)) (submitted ops ++ task_queue c).
Proof.
  revert c. induction ops as [|o ops IH]; intros c Hs.
  - split; [exact Hs|reflexivity].
  - change (run (o :: ops) c) with (run ops (step o c)).
    assert (Hstep : StronglySorted before (task_queue (step o c))
                    /\ Permutation (task_queue (step o c))
                         (submitted [o] ++ task_queue c)).
    { rewrite task_queue_step. destruct o; try (split; [exact Hs|reflexivity]).
      split; [now apply PriorityQueueFacts.put_sorted|].
      apply PriorityQueueFacts.put_permutation. }
    destruct Hstep as [Hs' Hp']. destruct (IH _ Hs') as [Hs'' Hp''].
    split; [exact Hs''|]. rewrite Hp'', Hp'.
    destruct o; simpl; try reflexivity.
    symmetry. apply Permutation_middle.
Qed.

(** C4 (as the code has it). In every history of the controller, the
    consumer gets the submitted entries, all of them, by descending
    priority, and among equal priorities by ascending task id, the string
    [agent_action_milliseconds] compared character by character: the order
    is determined by the entries, but among equal priorities it follows the
    agent and action names before the submission time. *)
Theorem dequeue_by_priority_then_task_id cfg ops :
  Permutation
    (PriorityQueue.drain (length (submitted ops))
       (task_queue (run ops (init cfg))))
    (submitted ops)
  /\ StronglySorted before
       (PriorityQueue.drain (length (submitted ops))
          (task_queue (run ops (init cfg)))).
Proof.
  destruct (task_queue_run ops (init cfg)) as [Hs Hp]; [constructor|].
  simpl in Hp. rewrite app_nil_r in Hp.
  rewrite <- (Permutation_length Hp), PriorityQueueFacts.drain_all.
  split; assumption.
Qed.

(** C4 as stated fails: tasks a, b, c submitted in this order with
    priorities 5, 8, 5 for the agents [zeta], [beta], [alpha] leave the
    queue in the order b, c, a. *)
Lemma dequeue_ties_follow_task_id :
  submitted mixed_agents_history
  = [(-5, "zeta_run_1700000000001"); (-8, "beta_run_1700000000002");
     (-5, "alpha_run_1700000000003")]
  /\ dequeue_order (run mixed_agents_history (init manual_config))
     = ["beta_run_1700000000002"; "alpha_run_1700000000003";
        "zeta_run_1700000000001"]
  /\ dequeue_order (run mixed_agents_history (init manual_config))
     <> ["beta_run_1700000000002"; "zeta_run_1700000000001";
         "alpha_run_1700000000003"].
Proof. repeat apply conj; try (vm_compute; reflexivity). vm_compute. discriminate. Qed.

(** With one agent and action and timestamps of equal length, the order of
    the ids is the order of submission, and (5,a), (8,b), (5,c) leave as
    b, a, c. *)
Example dequeue_same_agent :
  dequeue_order (run same_agent_history (init manual_config))
  = ["scanner_scan_1700000000002"; "scanner_scan_1700000000001";
     "scanner_scan_1700000000003"].
Proof. vm_compute. reflexivity. Qed.

(** C5 fails on the code: two calls of [submit_task] for the same agent and
    action within one millisecond return the same task id, and the second
    task replaces the first in [tasks] while the queue holds two entries
    for the one id. *)
Theorem submit_task_same_millisecond_same_id
    agent action params1 params2 priority1 priority2 ms created1 created2 c :
  let first := submit_task agent action params1 priority1
                 {| time_ms := ms; created := created1 |} in
  let second := submit_task agent action params2 priority2
                  {| time_ms := ms; created := created2 |} in
  fst (first c) = Val (task_id_of agent action ms)
  /\ fst (second (exec first c)) = Val (task_id_of agent action ms)
  /\ option_map Task.created_at
       (tasks (exec second (exec first c)) !! task_id_of agent action ms)
     = Some created2
  /\ Permutation
       (task_queue (exec second (exec first c)))
       ((- priority1, task_id_of agent action ms)
        :: (- priority2, task_id_of agent action ms) :: task_queue c).
Proof.
  unfold submit_task. run_monad. cbn [time_ms created].
  repeat apply conj; try reflexivity.
  - now rewrite lookup_insert_eq.
  - rewrite PriorityQueueFacts.put_permutation,
      PriorityQueueFacts.put_permutation. apply perm_swap.
Qed.

Example submit_task_collision :
  fst (submit_task "scanner" "scan" [("path", VStr "/srv/a")] 5
         (at_ms 1700000000001) (init manual_config))
  = Val "scanner_scan_1700000000001"
  /\ fst (submit_task "scanner" "scan" [("path", VStr "/srv/b")] 5
            (at_ms 1700000000001)
            (exec (submit_task "scanner" "scan" [("path", VStr "/srv/a")] 5
                     (at_ms 1700000000001))
               (init manual_config)))
     = Val "scanner_scan_1700000000001".
Proof. split; vm_compute; reflexivity. Qed.

(** ** The message bus *)

Lemma invocations_dispatch callbacks message outcome i :
  invocations (MessageBus.dispatch callbacks message outcome i)
  = map (fun callback => (callback, message)) callbacks.
Proof.
  revert i. induction callbacks as [|callback rest IH]; intros i; simpl;
    [reflexivity|].
  destruct (outcome i); simpl; now rewrite IH.
Qed.

(** C9. When the consumer takes a message whose topic has subscribers,
    every subscribed callback is called with that message, once and in the
    order of subscription, whichever of the calls raise; the bus keeps
    running and goes on with the rest of the queue. *)
Theorem dispatch_reaches_every_subscriber b topic message rest callbacks
    outcome :
  MessageBus.messages b = (topic, message) :: rest ->
  MessageBus.subscribers b !! topic = Some callbacks ->
  invocations (snd (MessageBus.process_one outcome b))
  = map (fun callback => (callback, message)) callbacks
  /\ MessageBus.running (fst (MessageBus.process_one outcome b))
     = MessageBus.running b
  /\ MessageBus.messages (fst (MessageBus.process_one outcome b)) = rest
  /\ MessageBus.subscribers (fst (MessageBus.process_one outcome b))
     = MessageBus.subscribers b.
Proof.
  intros Hm Hs. unfold MessageBus.process_one. rewrite Hm, Hs.
  cbn [fst snd MessageBus.running MessageBus.messages MessageBus.subscribers].
  split; [apply invocations_dispatch|]. repeat split.
Qed.

Lemma dispatch_reaches_every_subscriber_witness :
  (MessageBus.messages bus_two_subscribers
   = [("agent.status", status_message)]
   /\ MessageBus.subscribers bus_two_subscribers !! "agent.status"
      = Some ["audit_log"; "dashboard"])
  /\ invocations (snd (MessageBus.process_one first_raises bus_two_subscribers))
     = [("audit_log", status_message); ("dashboard", status_message)].
Proof.
  assert (Hm : MessageBus.messages bus_two_subscribers
               = [("agent.status", status_message)])
    by (vm_compute; reflexivity).
  assert (Hs : MessageBus.subscribers bus_two_subscribers !! "agent.status"
               = Some ["audit_log"; "dashboard"])
    by (vm_compute; reflexivity).
  split; [split; assumption|].
  exact (proj1 (dispatch_reaches_every_subscriber bus_two_subscribers
                  "agent.status" status_message [] ["audit_log"; "dashboard"]
                  first_raises Hm Hs)).
Defined.

(** The raising callback is logged, the well-behaved one is still called,
    and the loop goes on to the next iteration. *)
Example dispatch_with_failing_callback :
  MessageBus.process_messages [first_raises; first_raises] bus_two_subscribers
  = ({| MessageBus.subscribers :=
          MessageBus.subscribers bus_two_subscribers;
        MessageBus.messages := [];
        MessageBus.running := true |},
     [Invoke "audit_log" status_message;
      Log ERROR "Error in subscriber callback: KeyError: 'pid'";
      Invoke "dashboard" status_message]).
Proof. vm_compute. reflexivity. Qed.

(** ** Paths and identifiers *)

Example dirname_manifest :
  dirname "./agents/scanner/manifest.yaml" = "./agents/scanner"
  /\ path_join (dirname "./agents/scanner/manifest.yaml") "main.py"
     = "./agents/scanner/main.py"
  /\ dirname "manifest.yaml" = "" /\ path_join "" "main.py" = "main.py"
  /\ dirname "/manifest.yaml" = "/" /\ path_join "/" "main.py" = "/main.py".
Proof. repeat split; reflexivity. Qed.

Example string_of_Z_examples :
  string_of_Z 1700000000123 = "1700000000123" /\ string_of_Z 0 = "0"
  /\ string_of_Z (-5) = "-5".
Proof. repeat split; reflexivity. Qed.

(** * Further properties of the controller *)

(** ** More on dictionaries *)

Module PyDictKeys.
Import PyDict.

Section Keys.
Context {V : Type}.
Implicit Types (d : PyDict.t V) (k : string).

Lemma get_None_iff k d : get k d = None <-> ~ In k (keys d).
Proof.
  unfold keys. induction d as [|[k' v] d IH]; simpl; [tauto|].
  destruct (String.eqb k k') eqn:E.
  - apply String.eqb_eq in E. subst. split; [discriminate|tauto].
  - apply String.eqb_neq in E. rewrite IH. split.
    + intros H [H'|H']; [congruence|tauto].
    + tauto.
Qed.

Lemma get_Some_in_keys k v d : get k d = Some v -> In k (keys d).
Proof.
  intros H. destruct (in_dec string_dec k (keys d)) as [Hin|Hout];
    [exact Hin|].
  apply get_None_iff in Hout. congruence.
Qed.

Lemma NoDup_keys_set k (v : V) d : NoDup (keys d) -> NoDup (keys (set k v d)).
Proof.
  intros H. rewrite PyDictFacts.keys_set. unfold mem.
  destruct (get k d) eqn:G; [exact H|].
  apply get_None_iff in G. apply NoDup_app; split; [exact H|]. split.
  - intros x Hx Hin. apply list_elem_of_In in Hx, Hin.
    destruct Hin as [<-|[]]. contradiction.
  - apply NoDup_singleton.
Qed.

End Keys.
End PyDictKeys.

(** ** Properties of the registry as a whole

    A property of the registry that is kept by every registration and by
    the net effects of [start_agent], [stop_agent] and of a health check
    on one record is kept by every operation of the controller. *)

Section RegistryProperty.
Variable cfg : Config.
Variable J : PyDict.t AgentInfo.t -> Prop.
Hypothesis J_register : forall name path p d,
  J d -> J (PyDict.set name (fresh_agent name path p) d).
Hypothesis J_start : forall name w d,
  J d -> J (PyDict.alter (start_effect w) name d).
Hypothesis J_stop : forall name w d,
  J d -> J (PyDict.alter (stop_effect w) name d).
Hypothesis J_health : forall name w d,
  J d -> J (PyDict.alter (health_effect cfg w) name d).

Lemma sat_frame f :
  (forall c, config (f c) = config c /\ agents (f c) = agents c) ->
  preserves (registry_sat cfg J) (modify f).
Proof.
  intros Hf. apply preserves_modify. intros c [Hc Ha].
  destruct (Hf c) as [Ec Ea]. split; [congruence|].
  rewrite Ea. exact Ha.
Qed.

Lemma sat_log level text : preserves (registry_sat cfg J) (log level text).
Proof. apply sat_frame. intros c. split; reflexivity. Qed.

Lemma sat_register_agent name path m :
  preserves (registry_sat cfg J) (register_agent name path m).
Proof.
  intros c [Hc Ha]. split.
  - destruct m as [[p|]|e]; exact Hc.
  - rewrite register_agent_agents. destruct m as [p|e]; [|exact Ha].
    now apply J_register.
Qed.

Lemma sat_start_agent name w :
  preserves (registry_sat cfg J) (start_agent name w).
Proof.
  intros c [Hc Ha]. split.
  - now rewrite start_agent_config.
  - rewrite start_agent_agents. now apply J_start.
Qed.

Lemma sat_stop_agent name w :
  preserves (registry_sat cfg J) (stop_agent name w).
Proof.
  intros c [Hc Ha]. split.
  - now rewrite stop_agent_config.
  - rewrite stop_agent_agents. now apply J_stop.
Qed.

Lemma sat_health_check_agent name w :
  preserves (registry_sat cfg J) (health_check_agent name w).
Proof.
  intros c [Hc Ha]. split.
  - now rewrite health_check_agent_config.
  - rewrite health_check_agent_agents, Hc. now apply J_health.
Qed.

Lemma sat_health_check_pass w :
  preserves (registry_sat cfg J) (health_check_pass w).
Proof.
  unfold health_check_pass. apply preserves_try_except.
  - apply preserves_bind; [apply preserves_gets|]. intros registry.
    apply preserves_for_each. intros name. apply sat_health_check_agent.
  - intros e. apply sat_log.
Qed.

Lemma sat_health_check_loop ticks :
  preserves (registry_sat cfg J) (health_check_loop ticks).
Proof.
  induction ticks as [|w ticks IH]; simpl; [apply preserves_ret|].
  apply preserves_bind; [apply preserves_gets|]. intros [|].
  - apply preserves_bind; [apply sat_health_check_pass|]. intros _. exact IH.
  - apply preserves_ret.
Qed.

Lemma sat_discover_agents l :
  preserves (registry_sat cfg J) (discover_agents l).
Proof.
  unfold discover_agents. apply preserves_bind; [apply preserves_gets|].
  intros c0. destruct l as [entries|]; [|apply sat_log].
  apply preserves_bind.
  - apply preserves_for_each. intros e. destruct (is_agent_dir e).
    + apply sat_register_agent.
    + apply preserves_ret.
  - intros _. apply preserves_bind; [apply preserves_gets|]. intros r.
    apply sat_log.
Qed.

Lemma sat_start w : preserves (registry_sat cfg J) (start w).
Proof.
  unfold start, MessageBus.start.
  apply preserves_bind; [apply sat_log|]. intros _.
  apply preserves_bind; [apply sat_frame; now split|]. intros _.
  apply preserves_bind; [apply preserves_gets|]. intros bus.
  cbn beta iota.
  apply preserves_bind; [apply sat_frame; now split|]. intros _.
  apply preserves_bind; [apply sat_frame; now split|]. intros _.
  apply preserves_bind; [apply preserves_gets|]. intros c0.
  apply preserves_bind.
  { destruct (match auto_discover c0 with Some b => b | None => true end);
      [apply sat_discover_agents|apply preserves_ret]. }
  intros _. apply preserves_bind; [|intros _; apply sat_log].
  destruct (match auto_start c0 with Some b => b | None => false end);
    [|apply preserves_ret].
  apply preserves_bind; [apply preserves_gets|]. intros r.
  apply preserves_for_each. intros name.
  apply preserves_bind; [apply sat_start_agent|]. intros _.
  apply preserves_ret.
Qed.

Lemma sat_stop w : preserves (registry_sat cfg J) (stop w).
Proof.
  unfold stop, MessageBus.stop.
  apply preserves_bind; [apply sat_log|]. intros _.
  apply preserves_bind; [apply sat_frame; now split|]. intros _.
  apply preserves_bind; [apply preserves_gets|]. intros r.
  apply preserves_bind.
  { apply preserves_for_each. intros name.
    apply preserves_bind; [apply sat_stop_agent|]. intros _.
    apply preserves_ret. }
  intros _. apply preserves_bind; [apply preserves_gets|]. intros bus.
  cbn beta iota.
  apply preserves_bind; [apply sat_frame; now split|]. intros _.
  apply preserves_bind; [apply sat_frame; now split|]. intros _.
  apply sat_log.
Qed.

Lemma sat_submit_task agent action params priority w :
  preserves (registry_sat cfg J) (submit_task agent action params priority w).
Proof. intros c H. exact H. Qed.

Lemma sat_step o c : registry_sat cfg J c -> registry_sat cfg J (step o c).
Proof.
  destruct o; cbn [step].
  - apply sat_register_agent.
  - apply sat_discover_agents.
  - apply sat_start_agent.
  - apply sat_stop_agent.
  - apply sat_submit_task.
  - apply (sat_health_check_loop [w]).
  - apply sat_start.
  - apply sat_stop.
Qed.

Lemma sat_step_registers_nothing o c :
  registers_nothing o = true ->
  registry_sat cfg J c -> registry_sat cfg J (step o c).
Proof.
  destruct o; cbn [step registers_nothing]; try discriminate; intros _.
  - apply sat_start_agent.
  - apply sat_stop_agent.
  - apply sat_submit_task.
  - apply (sat_health_check_loop [w]).
  - apply sat_stop.
Qed.

Lemma sat_run ops c : registry_sat cfg J c -> registry_sat cfg J (run ops c).
Proof.
  revert c. induction ops as [|o ops IH]; intros c H; [exact H|].
  change (run (o :: ops) c) with (run ops (step o c)).
  apply IH, sat_step, H.
Qed.

End RegistryProperty.

(** ** What the lifecycle leaves of a record *)

Lemma later_record_refl a : later_record a a.
Proof. unfold later_record. repeat split; lia. Qed.

Lemma later_record_trans a b c :
  later_record a b -> later_record b c -> later_record a c.
Proof.
  unfold later_record. intros (N1 & M1 & P1 & R1) (N2 & M2 & P2 & R2).
  repeat split; try congruence. lia.
Qed.

Lemma later_record_start w a : later_record a (start_effect w a).
Proof.
  unfold start_effect. destruct (AgentStatus.eqb _ _);
    [apply later_record_refl|].
  destruct (script_exists w); cbn [negb];
    [|unfold later_record; cbn; repeat split; lia].
  destruct (spawn w); unfold later_record; cbn; repeat split; lia.
Qed.

Lemma later_record_stop w a : later_record a (stop_effect w a).
Proof.
  unfold stop_effect. destruct (_ || _); [apply later_record_refl|].
  destruct (stop_error w); unfold later_record; cbn; repeat split; lia.
Qed.

Lemma later_record_health cfg w a : later_record a (health_effect cfg w a).
Proof.
  unfold health_effect. destruct (_ && _); [|apply later_record_refl].
  destruct (sample w); [unfold later_record; cbn; repeat split; lia|].
  destruct (restart_due cfg a);
    [|unfold later_record; cbn; repeat split; lia].
  eapply later_record_trans; [|apply later_record_start].
  unfold later_record; cbn; repeat split; lia.
Qed.

Lemma later_registry_alter d0 d f k :
  (forall a, later_record a (f a)) ->
  later_registry d0 d -> later_registry d0 (PyDict.alter f k d).
Proof.
  intros Hf H n a'. rewrite PyDictFacts.get_alter.
  destruct (String.eqb k n); [|apply H].
  destruct (PyDict.get n d) as [a1|] eqn:G; cbn [option_map]; [|discriminate].
  intros [= <-]. destruct (H n a1 G) as (a & G0 & L).
  exists a. split; [exact G0|].
  eapply later_record_trans; [exact L|apply Hf].
Qed.

(** X1. Starting and stopping agents, submitting tasks, health-check
    passes and the shutdown of the controller keep the registered names in
    their order, and leave every record with the [name], [manifest_path]
    and [priority] it was registered with and with a [restart_count] that
    is not smaller than before: only a registration resets a record. *)
Theorem lifecycle_keeps_registration o c :
  registers_nothing o = true ->
  PyDict.keys (agents (step o c)) = PyDict.keys (agents c)
  /\ later_registry (agents c) (agents (step o c)).
Proof.
  intros Ho. split.
  - apply (sat_step_registers_nothing (config c)
             (fun d => PyDict.keys d = PyDict.keys (agents c))); trivial.
    + intros name w d H. now rewrite PyDictFacts.keys_alter.
    + intros name w d H. now rewrite PyDictFacts.keys_alter.
    + intros name w d H. now rewrite PyDictFacts.keys_alter.
    + now split.
  - apply (sat_step_registers_nothing (config c)
             (later_registry (agents c))); trivial.
    + intros name w d. apply later_registry_alter, later_record_start.
    + intros name w d. apply later_registry_alter, later_record_stop.
    + intros name w d. apply later_registry_alter, later_record_health.
    + split; [reflexivity|]. intros n a' G. exists a'.
      split; [exact G|apply later_record_refl].
Qed.

Lemma lifecycle_keeps_registration_witness :
  registers_nothing (Tick (found_dead (spawn_ok 4243 "2024-01-01T00:01:01")))
  = true
  /\ PyDict.keys
       (agents (step (Tick (found_dead (spawn_ok 4243 "2024-01-01T00:01:01")))
                  (scanner_supervised default_config)))
     = PyDict.keys (agents (scanner_supervised default_config)).
Proof.
  split; [reflexivity|].
  exact (proj1 (lifecycle_keeps_registration
                  (Tick (found_dead (spawn_ok 4243 "2024-01-01T00:01:01")))
                  (scanner_supervised default_config) eq_refl)).
Defined.

(** X2. No operation of the controller removes an agent or changes the
    order of the registered names: the names after an operation are the
    names before it, followed by the names it registered. *)
Theorem agents_never_removed o c :
  exists added,
    PyDict.keys (agents (step o c)) = PyDict.keys (agents c) ++ added.
Proof.
  apply (sat_step (config c)
           (fun d => exists added,
                       PyDict.keys d = PyDict.keys (agents c) ++ added)).
  - intros name path p d [added H]. rewrite PyDictFacts.keys_set.
    destruct (PyDict.mem name d); [now exists added|].
    exists (added ++ [name]). now rewrite H, app_assoc.
  - intros name w d H. now rewrite PyDictFacts.keys_alter.
  - intros name w d H. now rewrite PyDictFacts.keys_alter.
  - intros name w d H. now rewrite PyDictFacts.keys_alter.
  - split; [reflexivity|]. exists []. now rewrite app_nil_r.
Qed.

Lemma registry_wf_alter f k d :
  (forall a, AgentInfo.name (f a) = AgentInfo.name a) ->
  registry_wf d -> registry_wf (PyDict.alter f k d).
Proof.
  intros Hf [Hnd Hname]. split; [now rewrite PyDictFacts.keys_alter|].
  intros n a. rewrite PyDictFacts.get_alter.
  destruct (String.eqb k n); [|apply Hname].
  destruct (PyDict.get n d) as [a1|] eqn:G; cbn [option_map]; [|discriminate].
  intros [= <-]. rewrite Hf. now apply Hname.
Qed.

(** X3. In every reachable state the registered names are pairwise
    different and every record is stored under the name in its own [name]
    field. *)
Theorem reachable_registry_wf cfg c :
  reachable cfg c -> registry_wf (agents c).
Proof.
  intros [ops ->].
  apply (sat_run cfg registry_wf).
  - intros name path p d [Hnd Hname]. split.
    + now apply PyDictKeys.NoDup_keys_set.
    + intros n a. destruct (String.eqb name n) eqn:E.
      * apply String.eqb_eq in E. subst n.
        rewrite PyDictFacts.get_set_eq. now intros [= <-].
      * apply String.eqb_neq in E.
        rewrite PyDictFacts.get_set_ne by assumption. apply Hname.
  - intros name w d. apply registry_wf_alter. intros a.
    apply (later_record_start w a).
  - intros name w d. apply registry_wf_alter. intros a.
    apply (later_record_stop w a).
  - intros name w d. apply registry_wf_alter. intros a.
    apply (later_record_health cfg w a).
  - split; [reflexivity|]. split; [constructor|]. intros n a. discriminate.
Qed.

Lemma reachable_registry_wf_witness :
  reachable default_config
    (scanner_died default_config (spawn_ok 4243 "2024-01-01T00:01:01"))
  /\ registry_wf
       (agents (scanner_died default_config
                  (spawn_ok 4243 "2024-01-01T00:01:01"))).
Proof.
  assert (Hr : reachable default_config
                 (scanner_died default_config
                    (spawn_ok 4243 "2024-01-01T00:01:01")))
    by apply reachable_scanner_died.
  split; [exact Hr|].
  exact (reachable_registry_wf default_config _ Hr).
Defined.

(** ** Parts of the controller an operation does not touch

    A component of the controller that does not depend on the registry,
    the trace, the bus or the resource monitor is left alone by
    registration, by the lifecycle of the agents and by the health
    check. *)

Section Untouched.
Context {X : Type}.
Variable proj : MasterController -> X.
Hypothesis proj_agents : forall f c, proj (with_agents f c) = proj c.
Hypothesis proj_trace : forall f c, proj (with_trace f c) = proj c.
Hypothesis proj_bus : forall f c, proj (with_message_bus f c) = proj c.
Hypothesis proj_monitor : forall m c, proj (with_resource_monitor m c) = proj c.
Variable x : X.

Lemma keeps_log level text : preserves (keeps proj x) (log level text).
Proof.
  apply preserves_modify. unfold keeps. intros c H. now rewrite proj_trace.
Qed.

Lemma keeps_emit e : preserves (keeps proj x) (emit e).
Proof.
  apply preserves_modify. unfold keeps. intros c H. now rewrite proj_trace.
Qed.

Lemma keeps_update_agent name f : preserves (keeps proj x) (update_agent name f).
Proof.
  apply preserves_modify. unfold keeps. intros c H. now rewrite proj_agents.
Qed.

Lemma keeps_publish topic message : preserves (keeps proj x) (publish topic message).
Proof.
  apply preserves_modify. unfold keeps. intros c H. now rewrite proj_bus.
Qed.

Lemma keeps_call e o : preserves (keeps proj x) (call e o).
Proof.
  unfold call. apply preserves_bind; [apply keeps_emit|]. intros _.
  destruct o; [apply preserves_ret|apply preserves_raise].
Qed.

Lemma keeps_register_agent name path m :
  preserves (keeps proj x) (register_agent name path m).
Proof.
  unfold register_agent. apply preserves_try_except.
  - apply preserves_bind.
    + destruct m as [[p|]|e]; cbn [load_manifest];
        [apply preserves_ret|apply preserves_ret|apply preserves_raise].
    + intros priority. apply preserves_bind; [|intros _; apply keeps_log].
      apply preserves_modify. unfold keeps. intros c H.
      now rewrite proj_agents.
  - intros e. apply keeps_log.
Qed.

Lemma keeps_start_agent name w : preserves (keeps proj x) (start_agent name w).
Proof.
  unfold start_agent. apply preserves_bind; [apply preserves_gets|].
  intros registry. destruct (PyDict.get name registry) as [agent|].
  2:{ apply preserves_bind; [apply keeps_log|]. intros _. apply preserves_ret. }
  destruct (AgentStatus.eqb _ _).
  { apply preserves_bind; [apply keeps_log|]. intros _. apply preserves_ret. }
  apply preserves_try_except.
  - apply preserves_bind; [apply keeps_update_agent|]. intros _.
    cbn zeta. destruct (negb (script_exists w)).
    + apply preserves_bind; [apply keeps_log|]. intros _.
      apply preserves_bind; [apply keeps_update_agent|]. intros _.
      apply preserves_ret.
    + apply preserves_bind.
      { unfold popen. apply preserves_bind; [apply keeps_emit|]. intros _.
        destruct (spawn w); [apply preserves_ret|apply preserves_raise]. }
      intros pid.
      apply preserves_bind; [apply keeps_update_agent|]. intros _.
      apply preserves_bind; [apply keeps_update_agent|]. intros _.
      apply preserves_bind; [apply keeps_update_agent|]. intros _.
      apply preserves_bind; [apply keeps_log|]. intros _.
      apply preserves_bind; [apply keeps_publish|]. intros _.
      apply preserves_ret.
  - intros e. apply preserves_bind; [apply keeps_log|]. intros _.
    apply preserves_bind; [apply keeps_update_agent|]. intros _.
    apply preserves_ret.
Qed.

Lemma keeps_stop_agent name w : preserves (keeps proj x) (stop_agent name w).
Proof.
  unfold stop_agent. apply preserves_bind; [apply preserves_gets|].
  intros registry. destruct (PyDict.get name registry) as [agent|].
  2:{ apply preserves_bind; [apply keeps_log|]. intros _. apply preserves_ret. }
  destruct (_ || _).
  { apply preserves_bind; [apply keeps_log|]. intros _. apply preserves_ret. }
  cbn zeta. apply preserves_try_except.
  - apply preserves_bind; [apply keeps_update_agent|]. intros _.
    apply preserves_bind; [apply keeps_call|]. intros _.
    apply preserves_bind; [apply keeps_call|]. intros _.
    apply preserves_bind; [apply keeps_emit|]. intros _.
    apply preserves_bind.
    { destruct (wait w);
        [apply preserves_ret|apply keeps_call|apply preserves_raise]. }
    intros _.
    apply preserves_bind; [apply keeps_update_agent|]. intros _.
    apply preserves_bind; [apply keeps_update_agent|]. intros _.
    apply preserves_bind; [apply keeps_log|]. intros _.
    apply preserves_bind; [apply keeps_publish|]. intros _.
    apply preserves_ret.
  - intros e. apply preserves_bind; [apply keeps_log|]. intros _.
    apply preserves_ret.
Qed.

Lemma keeps_health_check_agent name w :
  preserves (keeps proj x) (health_check_agent name w).
Proof.
  unfold health_check_agent. apply preserves_bind; [apply preserves_gets|].
  intros registry. destruct (PyDict.get name registry) as [agent|];
    [|apply preserves_ret].
  destruct (_ && _); [|apply preserves_ret]. cbn zeta.
  apply preserves_bind.
  { unfold get_agent_resources.
    apply preserves_bind; [apply preserves_gets|]. intros monitor.
    destruct (ResourceMonitor.get_agent_resources _ _ _) as [r monitor'].
    apply preserves_bind; [|intros _; apply preserves_ret].
    apply preserves_modify. unfold keeps. intros c H.
    now rewrite proj_monitor. }
  intros [r|].
  - apply preserves_bind; apply keeps_update_agent || intros _.
    apply keeps_update_agent.
  - apply preserves_bind; [apply keeps_log|]. intros _.
    apply preserves_bind; [apply keeps_update_agent|]. intros _.
    apply preserves_bind; [apply preserves_gets|]. intros cfg.
    destruct (restart_enabled cfg); [|apply preserves_ret].
    destruct (Z.ltb _ _); [|apply preserves_ret].
    apply preserves_bind; [apply keeps_update_agent|]. intros _.
    apply preserves_bind; [apply keeps_log|]. intros _.
    apply preserves_bind; [apply keeps_start_agent|]. intros _.
    apply preserves_ret.
Qed.

Lemma keeps_health_check_loop ticks :
  preserves (keeps proj x) (health_check_loop ticks).
Proof.
  induction ticks as [|w ticks IH]; cbn [health_check_loop];
    [apply preserves_ret|].
  apply preserves_bind; [apply preserves_gets|]. intros [|];
    [|apply preserves_ret].
  apply preserves_bind; [|intros _; exact IH].
  apply preserves_try_except; [|intros e; apply keeps_log].
  apply preserves_bind; [apply preserves_gets|]. intros registry.
  apply preserves_for_each. intros name. apply keeps_health_check_agent.
Qed.

Lemma keeps_discover_agents l : preserves (keeps proj x) (discover_agents l).
Proof.
  unfold discover_agents. apply preserves_bind; [apply preserves_gets|].
  intros c0. cbn zeta. destruct l as [entries|]; [|apply keeps_log].
  apply preserves_bind.
  - apply preserves_for_each. intros e. destruct (is_agent_dir e).
    + apply keeps_register_agent.
    + apply preserves_ret.
  - intros _. apply preserves_bind; [apply preserves_gets|]. intros r.
    apply keeps_log.
Qed.

Hypothesis proj_running : forall r c, proj (with_running r c) = proj c.

Lemma keeps_start w : preserves (keeps proj x) (start w).
Proof.
  unfold start, MessageBus.start.
  apply preserves_bind; [apply keeps_log|]. intros _.
  apply preserves_bind.
  { apply preserves_modify. unfold keeps. intros c H.
    now rewrite proj_running. }
  intros _. apply preserves_bind; [apply preserves_gets|]. intros bus.
  cbn beta iota.
  apply preserves_bind.
  { apply preserves_modify. unfold keeps. intros c H. now rewrite proj_bus. }
  intros _. apply preserves_bind.
  { apply preserves_modify. unfold keeps. intros c H.
    now rewrite proj_trace. }
  intros _. apply preserves_bind; [apply preserves_gets|]. intros c0.
  apply preserves_bind.
  { destruct (match auto_discover c0 with Some b => b | None => true end);
      [apply keeps_discover_agents|apply preserves_ret]. }
  intros _. apply preserves_bind; [|intros _; apply keeps_log].
  destruct (match auto_start c0 with Some b => b | None => false end);
    [|apply preserves_ret].
  apply preserves_bind; [apply preserves_gets|]. intros r.
  apply preserves_for_each. intros name.
  apply preserves_bind; [apply keeps_start_agent|]. intros _.
  apply preserves_ret.
Qed.

Lemma keeps_stop w : preserves (keeps proj x) (stop w).
Proof.
  unfold stop, MessageBus.stop.
  apply preserves_bind; [apply keeps_log|]. intros _.
  apply preserves_bind.
  { apply preserves_modify. unfold keeps. intros c H.
    now rewrite proj_running. }
  intros _. apply preserves_bind; [apply preserves_gets|]. intros r.
  apply preserves_bind.
  { apply preserves_for_each. intros name.
    apply preserves_bind; [apply keeps_stop_agent|]. intros _.
    apply preserves_ret. }
  intros _. apply preserves_bind; [apply preserves_gets|]. intros bus.
  cbn beta iota.
  apply preserves_bind.
  { apply preserves_modify. unfold keeps. intros c H. now rewrite proj_bus. }
  intros _. apply preserves_bind.
  { apply preserves_modify. unfold keeps. intros c H.
    now rewrite proj_trace. }
  intros _. apply keeps_log.
Qed.

End Untouched.

(** ** Tasks *)

(** Only [submit_task] touches the table of tasks. *)
Lemma tasks_step o c :
  tasks (step o c)
  = match o with
    | SubmitTask agent action params priority w =>
        <[task_id_of agent action (time_ms w) :=
            {| Task.id := task_id_of agent action (time_ms w);
               Task.agent := agent; Task.action := action;
               Task.params := params; Task.priority := priority;
               Task.status := TaskStatus.PENDING;
               Task.created_at := created w;
               Task.started_at := None; Task.completed_at := None;
               Task.result := None; Task.error := None |}]> (tasks c)
    | _ => tasks c
    end.
Proof.
  destruct o; cbn [step]; try reflexivity.
  - now apply (keeps_register_agent tasks).
  - now apply (keeps_discover_agents tasks).
  - now apply (keeps_start_agent tasks).
  - now apply (keeps_stop_agent tasks).
  - now apply (keeps_health_check_loop tasks).
  - now apply (keeps_start tasks).
  - now apply (keeps_stop tasks).
Qed.

Lemma in_put x e q : In x (PriorityQueue.put e q) <-> In x (e :: q).
Proof.
  split; apply Permutation_in;
    [|symmetry]; apply PriorityQueueFacts.put_permutation.
Qed.

Lemma tasks_wf_step o c : tasks_wf c -> tasks_wf (step o c).
Proof.
  intros [Hq Ht]. unfold tasks_wf. rewrite tasks_step, task_queue_step.
  destruct o; try (split; assumption).
  set (id0 := task_id_of agent action (time_ms w)). split.
  - intros p id Hin. apply in_put in Hin. destruct Hin as [[= _ <-]|Hin].
    + rewrite lookup_insert_eq. now eexists.
    + destruct (decide (id0 = id)) as [<-|Hne].
      * rewrite lookup_insert_eq. now eexists.
      * rewrite lookup_insert_ne by assumption. now apply (Hq p).
  - intros id t. destruct (decide (id0 = id)) as [<-|Hne].
    + rewrite lookup_insert_eq. intros [= <-]. cbn.
      repeat split. apply in_put. now left.
    + rewrite lookup_insert_ne by assumption. intros G.
      destruct (Ht id t G) as (H1 & H2 & H3). repeat split; trivial.
      apply in_put. now right.
Qed.

Lemma tasks_wf_run ops c : tasks_wf c -> tasks_wf (run ops c).
Proof.
  revert c. induction ops as [|o ops IH]; intros c H; [exact H|].
  change (run (o :: ops) c) with (run ops (step o c)).
  apply IH, tasks_wf_step, H.
Qed.

(** X4. In every reachable state the task table and the task queue agree:
    every queued id has a task, and every stored task is stored under its
    own id, is still [PENDING] and has its entry [(-priority, id)] in
    the queue. Nothing in the controller takes a task off the queue or
    moves it out of [PENDING]. *)
Theorem reachable_tasks_wf cfg c : reachable cfg c -> tasks_wf c.
Proof.
  intros [ops ->]. apply tasks_wf_run. split.
  - intros p id [].
  - intros id t. cbn [init tasks]. rewrite lookup_empty. discriminate.
Qed.

Lemma reachable_tasks_wf_witness :
  reachable manual_config (run same_agent_history (init manual_config))
  /\ tasks_wf (run same_agent_history (init manual_config)).
Proof.
  assert (Hr : reachable manual_config
                 (run same_agent_history (init manual_config)))
    by apply reachable_run.
  split; [exact Hr|]. exact (reachable_tasks_wf manual_config _ Hr).
Defined.

(** ** More on the message bus *)

Lemma invocations_app t1 t2 :
  invocations (t1 ++ t2) = invocations t1 ++ invocations t2.
Proof. unfold invocations. apply flat_map_app. Qed.

(** X5. A running consumer that makes [n] iterations takes the first [n]
    queued messages (all of them when fewer are queued) in the order of
    publication, one per iteration, and calls for each the callbacks
    subscribed to its topic in the order of subscription, whichever calls
    raise; a message whose topic has no subscriber is taken and dropped.
    The consumer leaves the other messages queued and the subscriptions
    and the running flag as they are. *)
Theorem consumer_delivers_in_publish_order worlds b :
  MessageBus.running b = true ->
  invocations (snd (MessageBus.process_messages worlds b))
  = deliveries (MessageBus.subscribers b)
      (firstn (length worlds) (MessageBus.messages b))
  /\ MessageBus.messages (fst (MessageBus.process_messages worlds b))
     = skipn (length worlds) (MessageBus.messages b)
  /\ MessageBus.subscribers (fst (MessageBus.process_messages worlds b))
     = MessageBus.subscribers b
  /\ MessageBus.running (fst (MessageBus.process_messages worlds b)) = true.
Proof.
  revert b. induction worlds as [|w worlds IH]; intros b Hr.
  - cbn. auto.
  - cbn [MessageBus.process_messages length]. rewrite Hr.
    unfold MessageBus.process_one.
    destruct (MessageBus.messages b) as [|[topic message] rest] eqn:Hm.
    + specialize (IH b Hr). rewrite Hm in IH.
      destruct (MessageBus.process_messages worlds b) as [b2 t2].
      cbn [fst snd app] in *. rewrite firstn_nil, skipn_nil in IH.
      exact IH.
    + set (b1 := {| MessageBus.subscribers := MessageBus.subscribers b;
                    MessageBus.messages := rest;
                    MessageBus.running := MessageBus.running b |}).
      assert (IH1 := IH b1 Hr). cbn in IH1.
      unfold deliveries. cbn [firstn skipn flat_map fst snd].
      destruct (MessageBus.subscribers b !! topic) as [callbacks|];
        destruct (MessageBus.process_messages worlds b1) as [b2 t2];
        cbn [fst snd] in *; destruct IH1 as (I1 & I2 & I3 & I4);
        repeat split; trivial.
      now rewrite invocations_app, invocations_dispatch, I1.
Qed.

Lemma consumer_delivers_in_publish_order_witness :
  MessageBus.running bus_two_subscribers = true
  /\ invocations
       (snd (MessageBus.process_messages [first_raises; first_raises]
               bus_two_subscribers))
     = deliveries (MessageBus.subscribers bus_two_subscribers)
         (firstn 2 (MessageBus.messages bus_two_subscribers)).
Proof.
  split; [reflexivity|].
  exact (proj1 (consumer_delivers_in_publish_order
                  [first_raises; first_raises] bus_two_subscribers eq_refl)).
Defined.

(** A bus that is not running delivers nothing: the consumer loop ends at
    once and leaves the queue as it is. *)
Lemma stopped_bus_delivers_nothing worlds b :
  MessageBus.running b = false ->
  MessageBus.process_messages worlds b = (b, []).
Proof.
  intros Hr. destruct worlds as [|w worlds]; [reflexivity|].
  cbn [MessageBus.process_messages]. now rewrite Hr.
Qed.

(** X6. [subscribe] puts the callback after the callbacks already
    subscribed to the topic, also when it is subscribed already (it is then
    called once per subscription), and leaves the other topics alone. *)
Theorem subscribe_appends topic callback b message other :
  deliveries (MessageBus.subscribers (MessageBus.subscribe topic callback b))
    [(topic, message)]
  = deliveries (MessageBus.subscribers b) [(topic, message)]
    ++ [(callback, message)]
  /\ (other <> topic ->
      MessageBus.subscribers (MessageBus.subscribe topic callback b) !! other
      = MessageBus.subscribers b !! other).
Proof.
  unfold deliveries, MessageBus.subscribe.
  cbn [MessageBus.subscribers flat_map fst snd]. split.
  - rewrite lookup_insert_eq, !app_nil_r.
    destruct (MessageBus.subscribers b !! topic) as [l|]; [|reflexivity].
    now rewrite map_app.
  - intros Hne. now rewrite lookup_insert_ne.
Qed.

(** ** Loops over the registry *)

Lemma exec_bind_val {A B} (m : M A) (k : A -> M B) c a c' :
  m c = (Val a, c') -> bind m k c = k a c'.
Proof. intros H. unfold bind. now rewrite H. Qed.

Lemma never_raises_for_each {A} (l : list A) (body : A -> M unit) :
  (forall x, never_raises (body x)) -> never_raises (for_each l body).
Proof.
  intros Hb. induction l as [|x l IH]; intros c; cbn [for_each].
  - now exists tt.
  - destruct (Hb x c) as [u Hu]. unfold bind.
    destruct (body x c) as [[u'|e] c1]; cbn [fst] in Hu; [|discriminate].
    apply IH.
Qed.

Lemma start_agent_never_raises name w : never_raises (start_agent name w).
Proof. intros c. apply start_agent_returns. Qed.

Lemma stop_agent_never_raises name w : never_raises (stop_agent name w).
Proof.
  intros c. unfold stop_agent. run_monad.
  destruct (PyDict.get name (agents c)) as [agent|]; msimpl; eauto.
  destruct (_ || _); msimpl; eauto.
  destruct (lookup w), (terminate w), (wait w), (kill w); msimpl; eauto.
Qed.

Lemma health_check_agent_never_raises name w :
  never_raises (health_check_agent name w).
Proof.
  intros c. run_health.
  destruct (PyDict.get name (agents c)) as [agent|]; msimpl; eauto.
  destruct (AgentStatus.eqb _ _ && _); msimpl; eauto.
  destruct (sample w); msimpl; eauto.
  destruct (restart_enabled _); msimpl; eauto.
  destruct (Z.ltb _ _); msimpl; eauto.
  match goal with
  | |- context [start_agent ?n ?w ?c0] =>
      destruct (start_agent_returns n w c0) as [b Hb];
      destruct (start_agent n w c0) as [[r|e] c1]
  end; msimpl; [eauto|discriminate].
Qed.

(** A loop over names whose body changes, in the registry, the record of
    its own name only: after the loop over pairwise different names each
    of these records has been changed once, the others not at all. *)
Section ForEachAgent.
Variable Inv : MasterController -> Prop.
Variable body : string -> M unit.
Variable f : string -> AgentInfo.t -> AgentInfo.t.
Hypothesis body_inv : forall n, preserves Inv (body n).
Hypothesis body_returns : forall n, never_raises (body n).
Hypothesis body_agents : forall n c,
  Inv c -> agents (exec (body n) c) = PyDict.alter (f n) n (agents c).

Lemma for_each_agent l c k :
  NoDup l -> Inv c ->
  Inv (exec (for_each l body) c)
  /\ PyDict.get k (agents (exec (for_each l body) c))
     = if existsb (String.eqb k) l
       then option_map (f k) (PyDict.get k (agents c))
       else PyDict.get k (agents c).
Proof.
  intros Hnd. revert c. induction Hnd as [|x l Hx Hnd IH]; intros c Hc.
  - split; [exact Hc|reflexivity].
  - cbn [for_each existsb]. rewrite exec_bind.
    pose proof (body_inv x c Hc) as Hc1.
    pose proof (body_agents x c Hc) as Ha1.
    destruct (body_returns x c) as [u Hu]. unfold exec in Hc1, Ha1.
    destruct (body x c) as [[u'|e] c1]; cbn [fst snd] in *; [|discriminate].
    destruct (IH c1 Hc1) as [Hc2 Hk]. split; [exact Hc2|].
    rewrite Hk, Ha1, PyDictFacts.get_alter.
    destruct (String.eqb k x) eqn:E.
    + apply String.eqb_eq in E. subst x. rewrite String.eqb_refl.
      assert (Hn : existsb (String.eqb k) l = false).
      { apply not_true_is_false. intros H. apply existsb_exists in H.
        destruct H as (y & Hy & Ey). apply String.eqb_eq in Ey. subst y.
        apply Hx. now apply list_elem_of_In. }
      now rewrite Hn.
    + rewrite String.eqb_sym, E. reflexivity.
Qed.

End ForEachAgent.

Lemma existsb_keys {V} k (d : PyDict.t V) v :
  PyDict.get k d = Some v -> existsb (String.eqb k) (PyDict.keys d) = true.
Proof.
  intros G. apply existsb_exists. exists k.
  split; [now apply (PyDictKeys.get_Some_in_keys k v)|apply String.eqb_refl].
Qed.

Lemma for_each_agent_get Inv body f c k :
  (forall n, preserves Inv (body n)) ->
  (forall n, never_raises (body n)) ->
  (forall n c, Inv c ->
     agents (exec (body n) c) = PyDict.alter (f n) n (agents c)) ->
  NoDup (PyDict.keys (agents c)) -> Inv c ->
  PyDict.get k (agents (exec (for_each (PyDict.keys (agents c)) body) c))
  = option_map (f k) (PyDict.get k (agents c)).
Proof.
  intros H1 H2 H3 Hnd Hc.
  destruct (for_each_agent Inv body f H1 H2 H3 (PyDict.keys (agents c)) c k
              Hnd Hc) as [_ ->].
  destruct (PyDict.get k (agents c)) as [a|] eqn:G.
  - now rewrite (existsb_keys k _ a G).
  - now destruct (existsb _ _).
Qed.

Lemma reachable_keys_NoDup cfg c :
  reachable cfg c -> NoDup (PyDict.keys (agents c)).
Proof.
  intros [ops ->].
  apply (sat_run cfg (fun d => NoDup (PyDict.keys d))).
  - intros name path p d. apply PyDictKeys.NoDup_keys_set.
  - intros name w d H. now rewrite PyDictFacts.keys_alter.
  - intros name w d H. now rewrite PyDictFacts.keys_alter.
  - intros name w d H. now rewrite PyDictFacts.keys_alter.
  - split; [reflexivity|constructor].
Qed.

Lemma reachable_config cfg c : reachable cfg c -> config c = cfg.
Proof.
  intros [ops ->].
  apply (sat_run cfg (fun _ => True)); try (intros; exact I).
  now split.
Qed.

Lemma exec_bind_ret {A} (m : M A) c :
  exec (bind m (fun _ => ret tt)) c = exec m c.
Proof. unfold exec, bind, ret. now destruct (m c) as [[a|e] c']. Qed.

Lemma never_raises_bind_ret {A} (m : M A) :
  never_raises m -> never_raises (bind m (fun _ => ret tt)).
Proof.
  intros H c. destruct (H c) as [a Ha]. unfold bind, ret.
  destruct (m c) as [[a'|e] c']; cbn [fst] in *; [now exists tt|discriminate].
Qed.

Lemma restart_count_health_effect_step cfg w a :
  AgentInfo.restart_count (health_effect cfg w a)
  <= AgentInfo.restart_count a + 1.
Proof.
  unfold health_effect. destruct (_ && _); [|lia].
  destruct (sample w); [cbn; lia|].
  destruct (restart_due cfg a); [|cbn; lia].
  rewrite restart_count_start_effect. cbn. lia.
Qed.

(** ** One pass of the health check *)

(** X7. One pass of the health check deals with every registered agent
    once, and with each on its own: the record of an agent after the pass
    is what its own check makes of its record before the pass, whatever
    happens to the other agents. In particular a pass restarts an agent at
    most once. *)
Theorem health_pass_checks_each_agent_once cfg c w k :
  reachable cfg c ->
  PyDict.get k (agents (exec (health_check_pass w) c))
  = option_map (health_effect cfg (w k)) (PyDict.get k (agents c))
  /\ (forall a a',
        PyDict.get k (agents c) = Some a ->
        PyDict.get k (agents (exec (health_check_pass w) c)) = Some a' ->
        AgentInfo.restart_count a' <= AgentInfo.restart_count a + 1).
Proof.
  intros Hr.
  assert (E : PyDict.get k (agents (exec (health_check_pass w) c))
              = option_map (health_effect cfg (w k))
                  (PyDict.get k (agents c))).
  { pose proof (reachable_keys_NoDup cfg c Hr) as Hnd.
    pose proof (reachable_config cfg c Hr) as Hc.
    set (body := fun name => health_check_agent name (w name)).
    assert (Hret : never_raises (for_each (PyDict.keys (agents c)) body)).
    { apply never_raises_for_each. intros n.
      apply health_check_agent_never_raises. }
    destruct (Hret c) as [u Hu].
    assert (Ex : exec (health_check_pass w) c
                 = exec (for_each (PyDict.keys (agents c)) body) c).
    { unfold health_check_pass, exec, try_except, bind, gets. cbn [fst snd].
      fold body. destruct (for_each (PyDict.keys (agents c)) body c)
        as [[u'|e] c']; cbn [fst] in Hu; [reflexivity|discriminate]. }
    rewrite Ex.
    apply (for_each_agent_get (fun c => config c = cfg) body
             (fun n => health_effect cfg (w n))); trivial.
    - intros n c0 H0. unfold body. now rewrite health_check_agent_config.
    - intros n. apply health_check_agent_never_raises.
    - intros n c0 H0. unfold body.
      now rewrite health_check_agent_agents, H0. }
  split; [exact E|]. intros a a' G G'. rewrite E, G in G'.
  injection G' as <-. apply restart_count_health_effect_step.
Qed.

Lemma health_pass_checks_each_agent_once_witness :
  reachable default_config (scanner_supervised default_config)
  /\ PyDict.get "scanner"
       (agents (exec (health_check_pass
                        (found_dead (spawn_ok 4243 "2024-01-01T00:01:01")))
                  (scanner_supervised default_config)))
     = option_map
         (health_effect default_config
            (found_dead (spawn_ok 4243 "2024-01-01T00:01:01") "scanner"))
         (PyDict.get "scanner" (agents (scanner_supervised default_config))).
Proof.
  assert (Hr : reachable default_config (scanner_supervised default_config))
    by apply reachable_run.
  split; [exact Hr|].
  exact (proj1 (health_pass_checks_each_agent_once default_config
                  (scanner_supervised default_config)
                  (found_dead (spawn_ok 4243 "2024-01-01T00:01:01"))
                  "scanner" Hr)).
Defined.

(** X8. The health loop leaves an agent that is not [RUNNING] alone,
    however many passes it makes: only a running agent is sampled, and
    only an agent found dead while running is restarted. So an agent whose
    restart failed stays [FAILED] and is not tried again, even when
    restarts are left. *)
Theorem health_loop_ignores_agents_not_running ticks c name agent :
  PyDict.get name (agents c) = Some agent ->
  AgentInfo.status agent <> AgentStatus.RUNNING ->
  PyDict.get name (agents (exec (health_check_loop ticks) c)) = Some agent.
Proof.
  intros G Hs.
  set (I := fun c0 : MasterController =>
              PyDict.get name (agents c0) = Some agent).
  assert (Hlog : forall level text, preserves I (log level text)).
  { intros level text c0 H0. exact H0. }
  assert (Hagent : forall n w, preserves I (health_check_agent n w)).
  { intros n w c0 H0. unfold I in *.
    rewrite health_check_agent_agents, PyDictFacts.get_alter, H0.
    destruct (String.eqb n name); [|reflexivity]. cbn [option_map].
    unfold health_effect.
    destruct (AgentInfo.status agent); try reflexivity. contradiction. }
  assert (Hloop : preserves I (health_check_loop ticks)).
  { induction ticks as [|w ticks IH]; cbn [health_check_loop];
      [apply preserves_ret|].
    apply preserves_bind; [apply preserves_gets|]. intros [|];
      [|apply preserves_ret].
    apply preserves_bind; [|intros _; exact IH].
    apply preserves_try_except; [|intros e; apply Hlog].
    apply preserves_bind; [apply preserves_gets|]. intros registry.
    apply preserves_for_each. intros n. apply Hagent. }
  exact (Hloop c G).
Qed.

Lemma health_loop_ignores_agents_not_running_witness :
  (PyDict.get "scanner" (agents (scanner_died default_config no_script))
   = Some (AgentInfo.set_restart_count 1
             (AgentInfo.set_status AgentStatus.FAILED scanner_record))
   /\ AgentStatus.FAILED <> AgentStatus.RUNNING)
  /\ PyDict.get "scanner"
       (agents (exec (health_check_loop
                        [found_dead (spawn_ok 4243 "2024-01-01T00:02:00");
                         found_dead (spawn_ok 4244 "2024-01-01T00:03:00")])
                  (scanner_died default_config no_script)))
     = Some (AgentInfo.set_restart_count 1
               (AgentInfo.set_status AgentStatus.FAILED scanner_record)).
Proof.
  assert (Hg : PyDict.get "scanner"
                 (agents (scanner_died default_config no_script))
               = Some (AgentInfo.set_restart_count 1
                         (AgentInfo.set_status AgentStatus.FAILED
                            scanner_record)))
    by (vm_compute; reflexivity).
  assert (Hs : AgentStatus.FAILED <> AgentStatus.RUNNING) by discriminate.
  split; [split; assumption|].
  exact (health_loop_ignores_agents_not_running
           [found_dead (spawn_ok 4243 "2024-01-01T00:02:00");
            found_dead (spawn_ok 4244 "2024-01-01T00:03:00")]
           (scanner_died default_config no_script) "scanner"
           (AgentInfo.set_restart_count 1
              (AgentInfo.set_status AgentStatus.FAILED scanner_record))
           Hg Hs).
Defined.

(** ** Shutdown of the controller *)

(** The health loop of a controller that is not running ends at once. *)
Lemma health_check_loop_not_running ticks c :
  running c = false -> exec (health_check_loop ticks) c = c.
Proof.
  intros H. destruct ticks as [|w ticks]; [reflexivity|].
  cbn [health_check_loop]. unfold exec, bind, gets. now rewrite H.
Qed.

Lemma stop_effect_leaves_none_running w a :
  ~ (AgentInfo.status (stop_effect w a) = AgentStatus.RUNNING
     /\ AgentInfo.pid_truthy (stop_effect w a) = true).
Proof.
  unfold stop_effect.
  destruct (negb (AgentStatus.eqb (AgentInfo.status a) AgentStatus.RUNNING)
            || negb (AgentInfo.pid_truthy a)) eqn:E.
  - intros [Hs Hp]. rewrite Hs, Hp in E. discriminate.
  - destruct (stop_error w); cbn; intros [Hs _]; discriminate.
Qed.

(** X9. [stop] asks every registered agent to stop, each once and on its
    own: the record of an agent after the shutdown is what [stop_agent]
    makes of its record before it, also when stopping other agents
    failed. No agent with a pid is left [RUNNING] (it is [STOPPED], or
    [STOPPING] when its process could not be signalled), the controller
    and the bus are marked as not running, and the health loop then ends
    without checking anything. *)
Theorem stop_stops_every_agent cfg c w k :
  reachable cfg c ->
  PyDict.get k (agents (exec (stop w) c))
  = option_map (stop_effect (w k)) (PyDict.get k (agents c))
  /\ (forall a', PyDict.get k (agents (exec (stop w) c)) = Some a' ->
        ~ (AgentInfo.status a' = AgentStatus.RUNNING
           /\ AgentInfo.pid_truthy a' = true))
  /\ running (exec (stop w) c) = false
  /\ MessageBus.running (message_bus (exec (stop w) c)) = false
  /\ (forall ticks,
        exec (health_check_loop ticks) (exec (stop w) c) = exec (stop w) c).
Proof.
  intros Hr.
  pose proof (reachable_keys_NoDup cfg c Hr) as Hnd.
  set (body := fun name : string =>
                 bind (stop_agent name (w name)) (fun _ => ret tt)).
  set (c1 := with_running false
               (with_trace
                  (fun t => t ++ [Log INFO "Stopping Master Controller"]) c)).
  assert (Hnd1 : NoDup (PyDict.keys (agents c1))) by exact Hnd.
  assert (Hinv : forall n, preserves (keeps running false) (body n)).
  { intros n. unfold body. apply preserves_bind; [|intros _; apply preserves_ret].
    now apply (keeps_stop_agent running). }
  assert (Hret : forall n, never_raises (body n)).
  { intros n. apply never_raises_bind_ret, stop_agent_never_raises. }
  assert (Hag : forall n c0, keeps running false c0 ->
            agents (exec (body n) c0)
            = PyDict.alter (stop_effect (w n)) n (agents c0)).
  { intros n c0 _. unfold body. rewrite exec_bind_ret.
    apply stop_agent_agents. }
  assert (H1 : keeps running false c1) by reflexivity.
  destruct (for_each_agent (keeps running false) body
              (fun n => stop_effect (w n)) Hinv Hret Hag
              (PyDict.keys (agents c1)) c1 k Hnd1 H1) as [Hrun _].
  pose proof (for_each_agent_get (keeps running false) body
                (fun n => stop_effect (w n)) c1 k Hinv Hret Hag Hnd1 H1)
    as Hget.
  destruct (never_raises_for_each (PyDict.keys (agents c1)) body Hret c1)
    as [u Hu].
  assert (Ex : exists c2,
             exec (for_each (PyDict.keys (agents c1)) body) c1 = c2
             /\ agents (exec (stop w) c) = agents c2
             /\ running (exec (stop w) c) = running c2
             /\ MessageBus.running (message_bus (exec (stop w) c)) = false).
  { destruct (for_each (PyDict.keys (agents c1)) body c1) as [[u'|e] c2]
      eqn:Efe; cbn [fst] in Hu; [|discriminate].
    exists c2. split; [unfold exec; now rewrite Efe|].
    assert (Es : stop w c
                 = (Val tt,
                    with_trace
                      (fun t => t ++ [Log INFO "Master Controller stopped"])
                      (with_trace
                         (fun t => t ++ [Log INFO "Message bus stopped"])
                         (with_message_bus
                            (fun _ => fst (MessageBus.stop (message_bus c2)))
                            c2)))).
    { unfold stop.
      rewrite (exec_bind_val (log INFO "Stopping Master Controller") _ c tt
                 (with_trace
                    (fun t => t ++ [Log INFO "Stopping Master Controller"]) c)
                 eq_refl).
      rewrite (exec_bind_val (modify (with_running false)) _
                 (with_trace
                    (fun t => t ++ [Log INFO "Stopping Master Controller"]) c)
                 tt c1 eq_refl).
      rewrite (exec_bind_val (gets agents) _ c1 (agents c1) c1 eq_refl).
      fold body.
      rewrite (exec_bind_val (for_each (PyDict.keys (agents c1)) body) _
                 c1 u' c2 Efe).
      reflexivity. }
    unfold exec. rewrite Es. repeat split. }
  destruct Ex as (c2 & E2 & Ea & Erun & Ebus). rewrite E2 in Hrun, Hget.
  assert (E : PyDict.get k (agents (exec (stop w) c))
              = option_map (stop_effect (w k)) (PyDict.get k (agents c)))
    by (rewrite Ea; exact Hget).
  assert (Hoff : running (exec (stop w) c) = false)
    by (rewrite Erun; exact Hrun).
  split; [exact E|]. split; [|split; [|split]].
  - intros a'. rewrite E.
    destruct (PyDict.get k (agents c)) as [a|]; cbn [option_map];
      [|discriminate].
    intros [= <-]. apply stop_effect_leaves_none_running.
  - exact Hoff.
  - exact Ebus.
  - intros ticks. now apply health_check_loop_not_running.
Qed.

Lemma stop_stops_every_agent_witness :
  reachable manual_config (scanner_supervised manual_config)
  /\ PyDict.get "scanner"
       (agents (exec (stop (fun _ => stops_cleanly))
                  (scanner_supervised manual_config)))
     = option_map (stop_effect stops_cleanly)
         (PyDict.get "scanner" (agents (scanner_supervised manual_config))).
Proof.
  assert (Hr : reachable manual_config (scanner_supervised manual_config))
    by apply reachable_run.
  split; [exact Hr|].
  exact (proj1 (stop_stops_every_agent manual_config
                  (scanner_supervised manual_config)
                  (fun _ => stops_cleanly) "scanner" Hr)).
Defined.

(** ** Starting and stopping one agent *)

Lemma start_agent_result name w c agent :
  PyDict.get name (agents c) = Some agent ->
  fst (start_agent name w c)
  = Val (match start_spawns w agent with
         | Some _ => true
         | None => AgentStatus.eqb (AgentInfo.status agent) AgentStatus.RUNNING
         end).
Proof.
  intros G. unfold start_agent, start_spawns. run_monad. rewrite G. msimpl.
  destruct (AgentStatus.eqb _ _); msimpl; [reflexivity|].
  destruct (script_exists w); msimpl; [|reflexivity].
  destruct (spawn w); reflexivity.
Qed.

(** X10. The value [start_agent] returns tells whether the agent runs: it
    returns [True] exactly when the record of that name is [RUNNING]
    afterwards, be it newly started or running already; for an unknown
    name, a missing script or a failed spawn it returns [False]. *)
Theorem start_agent_reports_running name w c :
  fst (start_agent name w c) = Val true
  <-> option_map AgentInfo.status
        (PyDict.get name (agents (exec (start_agent name w) c)))
      = Some AgentStatus.RUNNING.
Proof.
  rewrite start_agent_agents, PyDictFacts.get_alter_eq.
  destruct (PyDict.get name (agents c)) as [agent|] eqn:G.
  - rewrite (start_agent_result name w c agent G). cbn [option_map].
    rewrite status_start_effect.
    destruct (start_spawns w agent); [split; reflexivity|].
    destruct (AgentStatus.eqb _ _); split; (reflexivity || discriminate).
  - unfold start_agent. run_monad. rewrite G. msimpl.
    split; discriminate.
Qed.

(** X11. Starting a registered agent that is not running and then
    stopping it, both without failure, leaves its record [STOPPED] and
    without pid, otherwise as before the start but for the time of the
    start in [last_health_check]; and puts on the bus the [started] event
    and then the [stopped] event of the agent. *)
Theorem start_then_stop name w ws c agent pid :
  PyDict.get name (agents c) = Some agent ->
  AgentInfo.status agent <> AgentStatus.RUNNING ->
  script_exists w = true ->
  spawn w = Spawned pid ->
  pid <> 0 ->
  stop_error ws = None ->
  fst (start_agent name w c) = Val true
  /\ fst (stop_agent name ws (exec (start_agent name w) c)) = Val true
  /\ PyDict.get name
       (agents (exec (stop_agent name ws) (exec (start_agent name w) c)))
     = Some (AgentInfo.set_pid None
               (AgentInfo.set_status AgentStatus.STOPPED
                  (AgentInfo.set_last_health_check (Some (started_at w))
                     agent)))
  /\ MessageBus.messages
       (message_bus (exec (stop_agent name ws) (exec (start_agent name w) c)))
     = MessageBus.messages (message_bus c)
       ++ [started_event name pid; stopped_event name].
Proof.
  intros G Hs Hx Hsp Hnz He.
  assert (Hnr : AgentStatus.eqb (AgentInfo.status agent) AgentStatus.RUNNING
                = false)
    by (destruct (AgentInfo.status agent); (reflexivity || contradiction)).
  assert (Hspawns : start_spawns w agent = Some pid)
    by (unfold start_spawns; now rewrite Hnr, Hx, Hsp).
  assert (Heff : start_effect w agent
                 = AgentInfo.set_last_health_check (Some (started_at w))
                     (AgentInfo.set_status AgentStatus.RUNNING
                        (AgentInfo.set_pid (Some pid) agent)))
    by (unfold start_effect; now rewrite Hnr, Hx, Hsp).
  assert (G1 : PyDict.get name (agents (exec (start_agent name w) c))
               = Some (start_effect w agent))
    by (now rewrite start_agent_agents, PyDictFacts.get_alter_eq, G).
  pose proof (start_agent_messages name w c agent G) as Hm.
  rewrite Hspawns in Hm.
  assert (Hstop := stop_agent_running name ws (exec (start_agent name w) c)
                     (start_effect w agent) pid G1).
  rewrite Heff in Hstop. specialize (Hstop eq_refl eq_refl Hnz).
  rewrite He in Hstop. split; [|split; [|split]].
  - rewrite (start_agent_result name w c agent G). now rewrite Hspawns.
  - now rewrite Hstop.
  - unfold exec at 1. rewrite Hstop. cbn [snd]. unfold with_trace,
      with_message_bus, with_agents. cbn [agents].
    now rewrite PyDictFacts.get_alter_eq, G1, Heff.
  - unfold exec at 1. rewrite Hstop. cbn [snd]. unfold with_trace,
      with_message_bus, with_agents. cbn [message_bus].
    unfold MessageBus.publish. cbn [MessageBus.messages].
    rewrite Hm, <- app_assoc. reflexivity.
Qed.

Lemma start_then_stop_witness :
  (PyDict.get "scanner" (agents (scanner_registered manual_config))
   = Some scanner_stopped_record
   /\ AgentInfo.status scanner_stopped_record <> AgentStatus.RUNNING
   /\ 4242 <> 0
   /\ stop_error stops_cleanly = None)
  /\ fst (start_agent "scanner" (spawn_ok 4242 "2024-01-01T00:00:00")
            (scanner_registered manual_config)) = Val true.
Proof.
  assert (Hg : PyDict.get "scanner" (agents (scanner_registered manual_config))
               = Some scanner_stopped_record) by (vm_compute; reflexivity).
  assert (Hs : AgentInfo.status scanner_stopped_record <> AgentStatus.RUNNING)
    by discriminate.
  assert (Hnz : 4242 <> 0) by discriminate.
  assert (He : stop_error stops_cleanly = None) by reflexivity.
  split; [repeat split; assumption|].
  exact (proj1 (start_then_stop "scanner"
                  (spawn_ok 4242 "2024-01-01T00:00:00") stops_cleanly
                  (scanner_registered manual_config) scanner_stopped_record
                  4242 Hg Hs eq_refl eq_refl Hnz He)).
Defined.

(** ** Discovery *)

Lemma register_agent_never_raises name path m :
  never_raises (register_agent name path m).
Proof. intros c. destruct m as [[p|]|e]; now exists tt. Qed.

Lemma for_each_fold {A} (body : A -> M unit)
    (g : PyDict.t AgentInfo.t -> A -> PyDict.t AgentInfo.t) l c :
  (forall x, never_raises (body x)) ->
  (forall x c0, agents (exec (body x) c0) = g (agents c0) x) ->
  agents (exec (for_each l body) c) = fold_left g l (agents c).
Proof.
  intros Hret Hg. revert c. induction l as [|x l IH]; intros c;
    [reflexivity|].
  cbn [for_each fold_left]. rewrite exec_bind.
  pose proof (Hg x c) as Hx. destruct (Hret x c) as [u Hu]. unfold exec in Hx.
  destruct (body x c) as [[u'|e] c1]; cbn [fst snd] in *; [|discriminate].
  now rewrite IH, Hx.
Qed.

Lemma discover_agents_agents entries c :
  agents (exec (discover_agents (Some entries)) c)
  = fold_left (discover_entry (config c)) entries (agents c).
Proof.
  set (body := fun e : DirEntry =>
         if is_agent_dir e
         then register_agent (entry_name e) (manifest_path_of (config c) e)
                (manifest e)
         else ret tt).
  assert (Hret : forall e, never_raises (body e)).
  { intros e. unfold body. destruct (is_agent_dir e);
      [apply register_agent_never_raises|intros c0; now exists tt]. }
  assert (Hg : forall e c0,
            agents (exec (body e) c0) = discover_entry (config c) (agents c0) e).
  { intros e c0. unfold body, discover_entry.
    destruct (is_agent_dir e); [|reflexivity].
    now rewrite register_agent_agents. }
  rewrite <- (for_each_fold body (discover_entry (config c)) entries c Hret Hg).
  assert (E : exec (discover_agents (Some entries)) c
              = exec (bind (for_each entries body)
                        (fun _ =>
                           bind (gets agents)
                             (fun registry =>
                                log INFO
                                  ("Discovered "
                                   +:+ string_of_Z (Z.of_nat (length registry))
                                   +:+ " agents")))) c)
    by reflexivity.
  rewrite E, exec_bind.
  destruct (never_raises_for_each entries body Hret c) as [u Hu].
  unfold exec.
  destruct (for_each entries body c) as [[u'|e] c1]; cbn [fst snd] in *;
    [reflexivity|discriminate].
Qed.

Lemma fold_discover_other cfg k entries d :
  (forall e, In e entries -> entry_name e = k -> readable e = false) ->
  PyDict.get k (fold_left (discover_entry cfg) entries d) = PyDict.get k d.
Proof.
  revert d. induction entries as [|e0 entries IH]; intros d H;
    [reflexivity|].
  cbn [fold_left]. rewrite IH by (intros e He; apply H; now right).
  unfold discover_entry. pose proof (H e0 (or_introl eq_refl)) as H0.
  unfold readable in H0.
  destruct (is_agent_dir e0); [|reflexivity].
  destruct (manifest e0) as [p|err]; [|reflexivity].
  apply PyDictFacts.get_set_ne. intros E. now specialize (H0 E).
Qed.

(** X12. [discover_agents] registers every directory of the listing that
    has a readable manifest, with a fresh [STOPPED] record, whatever the
    other entries are: a plain file or a manifest that cannot be read is
    passed over and does not stop the discovery; and the record of a name
    for which the listing has no readable manifest is left as it is. *)
Theorem discover_registers_readable_agents entries c :
  NoDup (map entry_name entries) ->
  (forall e p,
     In e entries -> is_agent_dir e = true -> manifest e = ManifestLoaded p ->
     PyDict.get (entry_name e)
       (agents (exec (discover_agents (Some entries)) c))
     = Some (fresh_agent (entry_name e) (manifest_path_of (config c) e) p))
  /\ (forall k,
        (forall e, In e entries -> entry_name e = k -> readable e = false) ->
        PyDict.get k (agents (exec (discover_agents (Some entries)) c))
        = PyDict.get k (agents c)).
Proof.
  intros Hnd. rewrite discover_agents_agents. split.
  - generalize (agents c) as d. induction entries as [|e0 entries IH];
      intros d e p Hin Hdir Hm; [destruct Hin|].
    cbn [map] in Hnd. apply NoDup_cons in Hnd as [Hout Hnd].
    cbn [fold_left]. destruct Hin as [<-|Hin].
    + rewrite fold_discover_other.
      * unfold discover_entry. rewrite Hdir, Hm.
        apply PyDictFacts.get_set_eq.
      * intros e He Hname. exfalso. apply Hout.
        rewrite <- Hname. apply list_elem_of_In. now apply in_map.
    + now apply IH.
  - intros k Hk. now apply fold_discover_other.
Qed.

Lemma discover_registers_readable_agents_witness :
  NoDup (map entry_name sample_listing)
  /\ PyDict.get "writer"
       (agents (exec (discover_agents (Some sample_listing))
                  (init default_config)))
     = Some (fresh_agent "writer" "./agents/writer/manifest.yaml" None).
Proof.
  assert (Hnd : NoDup (map entry_name sample_listing))
    by (apply (bool_decide_unpack _); vm_compute; exact I).
  split; [exact Hnd|].
  exact (proj1 (discover_registers_readable_agents sample_listing
                  (init default_config) Hnd)
           {| entry_name := "writer"; is_agent_dir := true;
              manifest := ManifestLoaded None |}
           None
           (or_intror (or_intror (or_intror (or_introl eq_refl))))
           eq_refl eq_refl).
Defined.

(** ** The command line *)

Lemma discover_agents_never_raises listing :
  never_raises (discover_agents listing).
Proof.
  intros c. destruct listing as [entries|]; [|now exists tt].
  set (body := fun e : DirEntry =>
         if is_agent_dir e
         then register_agent (entry_name e) (manifest_path_of (config c) e)
                (manifest e)
         else ret tt).
  assert (Hret : forall e, never_raises (body e)).
  { intros e. unfold body. destruct (is_agent_dir e);
      [apply register_agent_never_raises|intros c0; now exists tt]. }
  destruct (never_raises_for_each entries body Hret c) as [u Hu].
  change (discover_agents (Some entries) c)
    with (bind (for_each entries body)
            (fun _ =>
               bind (gets agents)
                 (fun registry =>
                    log INFO
                      ("Discovered "
                       +:+ string_of_Z (Z.of_nat (length registry))
                       +:+ " agents"))) c).
  unfold bind at 1.
  destruct (for_each entries body c) as [[u'|e] c1]; cbn [fst] in Hu;
    [now exists tt|discriminate].
Qed.

(** After a discovery by a new controller every agent is stopped and no
    process has been touched. *)
Lemma discover_agents_fresh listing cfg :
  registry_all (fun a => AgentInfo.status a = AgentStatus.STOPPED)
    (agents (exec (discover_agents listing) (init cfg)))
  /\ Forall (fun e => signals_process e = false)
       (trace (exec (discover_agents listing) (init cfg))).
Proof.
  set (I := fun c : MasterController =>
              registry_all (fun a => AgentInfo.status a = AgentStatus.STOPPED)
                (agents c)
              /\ Forall (fun e => signals_process e = false) (trace c)).
  assert (Hlog : forall level text, preserves I (log level text)).
  { intros level text c [Ha Ht]. split; [exact Ha|].
    unfold exec, log, emit, modify, with_trace. cbn [snd trace].
    apply Forall_app. split; [exact Ht|]. now repeat constructor. }
  assert (Hreg : forall name path m, preserves I (register_agent name path m)).
  { intros name path m. unfold register_agent. apply preserves_try_except.
    - apply preserves_bind.
      + destruct m as [[p|]|e]; cbn [load_manifest];
          [apply preserves_ret|apply preserves_ret|apply preserves_raise].
      + intros priority. apply preserves_bind; [|intros _; apply Hlog].
        apply preserves_modify. intros c [Ha Ht]. split; [|exact Ht].
        unfold with_agents. cbn [agents].
        now apply registry_all_set.
    - intros e. apply Hlog. }
  assert (Hdisc : preserves I (discover_agents listing)).
  { unfold discover_agents. apply preserves_bind; [apply preserves_gets|].
    intros c0. cbn zeta. destruct listing as [entries|]; [|apply Hlog].
    apply preserves_bind.
    - apply preserves_for_each. intros e. destruct (is_agent_dir e).
      + apply Hreg.
      + apply preserves_ret.
    - intros _. apply preserves_bind; [apply preserves_gets|]. intros r.
      apply Hlog. }
  apply Hdisc. split.
  - intros n a. discriminate.
  - now repeat constructor.
Qed.

(** X13. [main.py --agent-stop NAME] never reaches a process: the new
    controller it builds knows every discovered agent as stopped, so it
    looks up, signals and waits for nothing, changes no record, and prints
    that the agent was stopped whenever the name was discovered, and that
    stopping failed when it was not. *)
Theorem main_agent_stop_signals_nothing cfg listing name w :
  Forall (fun e => signals_process e = false)
    (trace (exec (main_agent_stop listing name w) (init cfg)))
  /\ agents (exec (main_agent_stop listing name w) (init cfg))
     = agents (exec (discover_agents listing) (init cfg))
  /\ fst (main_agent_stop listing name w (init cfg))
     = Val (if PyDict.mem name
                 (agents (exec (discover_agents listing) (init cfg)))
            then "Agent " +:+ name +:+ " stopped"
            else "Failed to stop agent " +:+ name).
Proof.
  destruct (discover_agents_fresh listing cfg) as [Hall Htr].
  destruct (discover_agents_never_raises listing (init cfg)) as [u Hu].
  unfold exec in *.
  destruct (discover_agents listing (init cfg)) as [[u'|e] c1] eqn:Ed;
    cbn [fst snd] in *; [|discriminate].
  assert (Es : exists level text,
             stop_agent name w c1
             = (Val (PyDict.mem name (agents c1)),
                with_trace (fun t => t ++ [Log level text]) c1)).
  { unfold PyDict.mem, stop_agent. run_monad.
    destruct (PyDict.get name (agents c1)) as [agent|] eqn:G; msimpl.
    - rewrite (Hall name agent G). msimpl. now eexists _, _.
    - now eexists _, _. }
  destruct Es as (level & text & Es).
  unfold main_agent_stop.
  rewrite (exec_bind_val (discover_agents listing) _ (init cfg) u' c1 Ed).
  rewrite (exec_bind_val (stop_agent name w) _ c1 _ _ Es).
  unfold ret, with_trace. cbn [fst snd trace agents]. repeat split.
  apply Forall_app. split; [exact Htr|]. now repeat constructor.
Qed.

(** X14. [main.py --agent-start NAME] prints that the agent was started
    exactly when the agent is [RUNNING] in the controller afterwards, and
    that starting failed otherwise: when the name was not discovered, the
    main script is missing or the process could not be spawned. *)
Theorem main_agent_start_reports_running cfg listing name w :
  fst (main_agent_start listing name w (init cfg))
  = Val (if match PyDict.get name
                     (agents (exec (main_agent_start listing name w)
                                (init cfg))) with
            | Some a => AgentStatus.eqb (AgentInfo.status a) AgentStatus.RUNNING
            | None => false
            end
         then "Agent " +:+ name +:+ " started"
         else "Failed to start agent " +:+ name).
Proof.
  destruct (discover_agents_never_raises listing (init cfg)) as [u Hu].
  destruct (discover_agents listing (init cfg)) as [[u'|e] c1] eqn:Ed;
    cbn [fst] in Hu; [|discriminate]. clear Hu.
  pose proof (start_agent_agents name w c1) as Ha.
  destruct (start_agent_returns name w c1) as [b Hb]. unfold exec in *.
  destruct (start_agent name w c1) as [[b'|e] c2] eqn:Es; cbn [fst snd] in *;
    [|discriminate].
  injection Hb as ->. unfold main_agent_start.
  rewrite (exec_bind_val (discover_agents listing) _ (init cfg) u' c1 Ed).
  rewrite (exec_bind_val (start_agent name w) _ c1 b c2 Es).
  unfold ret. cbn [fst snd]. rewrite Ha, PyDictFacts.get_alter_eq.
  destruct (PyDict.get name (agents c1)) as [agent|] eqn:G; cbn [option_map].
  - pose proof (start_agent_result name w c1 agent G) as Hres.
    rewrite Es in Hres. cbn [fst] in Hres. injection Hres as ->.
    rewrite status_start_effect.
    destruct (start_spawns w agent); [reflexivity|].
    now destruct (AgentStatus.eqb _ _).
  - assert (Hres : fst (start_agent name w c1) = Val false).
    { unfold start_agent. run_monad. now rewrite G. }
    rewrite Es in Hres. cbn [fst] in Hres. now injection Hres as ->.
Qed.

(** ** The process cache *)

(** X15. Only the health check touches the cache of process handles:
    registering, starting and stopping agents, submitting tasks and the
    start and shutdown of the controller leave it as it is. In particular
    [stop_agent] does not evict the handle of the process it stopped; an
    entry goes only when a later sample finds the process gone. *)
Theorem only_health_check_touches_process_cache o c :
  samples_processes o = false ->
  resource_monitor (step o c) = resource_monitor c.
Proof.
  destruct o; cbn [step samples_processes]; try discriminate; intros _.
  - now apply (keeps_register_agent resource_monitor).
  - now apply (keeps_discover_agents resource_monitor).
  - now apply (keeps_start_agent resource_monitor).
  - now apply (keeps_stop_agent resource_monitor).
  - reflexivity.
  - now apply (keeps_start resource_monitor).
  - now apply (keeps_stop resource_monitor).
Qed.

Lemma only_health_check_touches_process_cache_witness :
  samples_processes (StopAgent "scanner" stops_cleanly) = false
  /\ resource_monitor
       (step (StopAgent "scanner" stops_cleanly)
          (scanner_running manual_config))
     = resource_monitor (scanner_running manual_config).
Proof.
  split; [reflexivity|].
  exact (only_health_check_touches_process_cache
           (StopAgent "scanner" stops_cleanly)
           (scanner_running manual_config) eq_refl).
Defined.

(** ** Restart attempts *)

(** X16. An automatic restart is counted whether it works or not. When a
    health check finds a running agent dead and the policy allows a
    restart, the record leaves the check with [restart_count] one higher;
    it is [RUNNING] with the pid of the new process when one was spawned,
    and [FAILED] with its old pid when the main script is missing or the
    spawn failed. *)
Theorem restart_attempt_is_counted name w c agent :
  PyDict.get name (agents c) = Some agent ->
  AgentInfo.status agent = AgentStatus.RUNNING ->
  AgentInfo.pid_truthy agent = true ->
  sample w = ProcessGone ->
  restart_due (config c) agent = true ->
  exists agent',
    PyDict.get name (agents (exec (health_check_agent name w) c))
    = Some agent'
    /\ AgentInfo.restart_count agent' = AgentInfo.restart_count agent + 1
    /\ match start_spawns (restart w)
               (AgentInfo.set_status AgentStatus.FAILED agent) with
       | Some pid =>
           AgentInfo.status agent' = AgentStatus.RUNNING
           /\ AgentInfo.pid agent' = Some pid
       | None =>
           AgentInfo.status agent' = AgentStatus.FAILED
           /\ AgentInfo.pid agent' = AgentInfo.pid agent
       end.
Proof.
  intros G Hs Ht Hw Hd.
  exists (health_effect (config c) w agent).
  rewrite health_check_agent_agents, PyDictFacts.get_alter_eq, G.
  split; [reflexivity|].
  unfold health_effect. rewrite Hs, Ht, Hw, Hd. cbn [AgentStatus.eqb andb].
  split; [now rewrite restart_count_start_effect|].
  unfold start_effect, start_spawns. cbn [AgentInfo.status
    AgentInfo.set_status AgentInfo.set_restart_count AgentStatus.eqb].
  destruct (script_exists (restart w)); cbn [negb]; [|now split].
  destruct (spawn (restart w)); now split.
Qed.

Lemma restart_attempt_is_counted_witness :
  (PyDict.get "scanner" (agents (scanner_supervised default_config))
   = Some scanner_record
   /\ restart_due (config (scanner_supervised default_config)) scanner_record
      = true)
  /\ exists agent',
       PyDict.get "scanner"
         (agents (exec (health_check_agent "scanner"
                          (found_dead no_script "scanner"))
                    (scanner_supervised default_config)))
       = Some agent'
       /\ AgentInfo.restart_count agent'
          = AgentInfo.restart_count scanner_record + 1
       /\ match start_spawns (restart (found_dead no_script "scanner"))
                  (AgentInfo.set_status AgentStatus.FAILED scanner_record) with
          | Some pid =>
              AgentInfo.status agent' = AgentStatus.RUNNING
              /\ AgentInfo.pid agent' = Some pid
          | None =>
              AgentInfo.status agent' = AgentStatus.FAILED
              /\ AgentInfo.pid agent' = AgentInfo.pid scanner_record
          end.
Proof.
  assert (Hg : PyDict.get "scanner" (agents (scanner_supervised default_config))
               = Some scanner_record) by (vm_compute; reflexivity).
  assert (Hd : restart_due (config (scanner_supervised default_config))
                 scanner_record = true) by (vm_compute; reflexivity).
  split; [split; assumption|].
  exact (restart_attempt_is_counted "scanner" (found_dead no_script "scanner")
           (scanner_supervised default_config) scanner_record
           Hg eq_refl eq_refl eq_refl Hd).
Defined.

(** ** Paths *)

Module PathFacts.

Lemma list_of_append a b :
  list_ascii_of_string (a +:+ b)
  = list_ascii_of_string a ++ list_ascii_of_string b.
Proof.
  induction a as [|c a IH]; [reflexivity|].
  change (c :: list_ascii_of_string (a +:+ b)
          = c :: list_ascii_of_string a ++ list_ascii_of_string b).
  now rewrite IH.
Qed.

Lemma rev_ends_without_sep l :
  l <> [] -> forallb (fun c => negb (is_sep c)) l = true ->
  exists c r, rev l = c :: r /\ is_sep c = false.
Proof.
  intros Hne Hall. destruct (rev l) as [|c r] eqn:E.
  - apply (f_equal (@rev ascii)) in E. rewrite rev_involutive in E.
    contradiction.
  - exists c, r. split; [reflexivity|].
    assert (Hin : In c l) by (apply in_rev; rewrite E; now left).
    rewrite forallb_forall in Hall. specialize (Hall c Hin).
    now apply negb_true_iff in Hall.
Qed.

Lemma list_of_nonempty s : s <> "" -> list_ascii_of_string s <> [].
Proof. destruct s; [contradiction|discriminate]. Qed.

(** A path that ends in a component is not empty and does not end in a
    separator; joining something to it puts a separator in between. *)
Lemma path_join_component p name b l :
  name <> "" -> no_sep name ->
  list_ascii_of_string p = l ++ list_ascii_of_string name ->
  path_join p b = p +:+ "/" +:+ b.
Proof.
  intros Hne Hns Hl. unfold path_join.
  assert (E1 : String.eqb p "" = false).
  { apply String.eqb_neq. intros ->. cbn in Hl.
    destruct l; [|discriminate]. cbn in Hl.
    now apply (list_of_nonempty name). }
  assert (E2 : ends_with_sep p = false).
  { unfold ends_with_sep. rewrite Hl, rev_app_distr.
    destruct (rev_ends_without_sep _ (list_of_nonempty name Hne) Hns)
      as (c & r & -> & Hc). exact Hc. }
  now rewrite E1, E2.
Qed.

Lemma path_join_ends_in_component dir name :
  exists l,
    list_ascii_of_string (path_join dir name)
    = l ++ list_ascii_of_string name.
Proof.
  unfold path_join. destruct (_ || _).
  - exists (list_ascii_of_string dir). apply list_of_append.
  - exists (list_ascii_of_string dir ++ ["/"%char]).
    rewrite list_of_append, <- app_assoc. reflexivity.
Qed.

Lemma forallb_rev {A} (f : A -> bool) l : forallb f (rev l) = forallb f l.
Proof.
  destruct (forallb f l) eqn:E.
  - apply forallb_forall. intros x Hx. apply in_rev in Hx.
    rewrite forallb_forall in E. now apply E.
  - apply not_true_is_false. intros H. rewrite forallb_forall in H.
    assert (H' : forallb f l = true).
    { apply forallb_forall. intros x Hx. apply H. now apply in_rev in Hx. }
    congruence.
Qed.

Lemma drop_to_sep_skip m x :
  forallb (fun c => negb (is_sep c)) m = true ->
  drop_to_sep (m ++ "/"%char :: x) = "/"%char :: x.
Proof.
  induction m as [|c m IH]; intros H; [reflexivity|].
  cbn [forallb] in H. apply andb_prop in H as [Hc Hm].
  apply negb_true_iff in Hc. cbn [app drop_to_sep]. rewrite Hc. now apply IH.
Qed.

(** The directory of a file directly under a path that ends in a
    component is that path. *)
Lemma dirname_of_file p name l b :
  name <> "" -> no_sep name ->
  list_ascii_of_string p = l ++ list_ascii_of_string name ->
  no_sep b ->
  dirname (p +:+ "/" +:+ b) = p.
Proof.
  intros Hne Hns Hl Hb.
  destruct (rev_ends_without_sep _ (list_of_nonempty name Hne) Hns)
    as (c & r & Er & Hc).
  assert (Hrev : rev (list_ascii_of_string p) = c :: r ++ rev l)
    by (now rewrite Hl, rev_app_distr, Er).
  unfold dirname.
  rewrite list_of_append, rev_app_distr.
  change (list_ascii_of_string ("/" +:+ b))
    with ("/"%char :: list_ascii_of_string b).
  change (rev ("/"%char :: list_ascii_of_string b))
    with (rev (list_ascii_of_string b) ++ ["/"%char]).
  rewrite <- app_assoc. cbn [app].
  rewrite drop_to_sep_skip by (rewrite forallb_rev; exact Hb).
  change (rev ("/"%char :: rev (list_ascii_of_string p)))
    with (rev (rev (list_ascii_of_string p)) ++ ["/"%char]).
  rewrite rev_involutive.
  assert (Hall : forallb is_sep (list_ascii_of_string p ++ ["/"%char])
                 = false).
  { rewrite <- (forallb_rev is_sep), rev_app_distr, Hrev.
    cbn [rev app forallb]. now rewrite Hc, andb_false_r. }
  rewrite Hall, rev_app_distr. cbn [rev app lstrip_sep].
  change (is_sep "/"%char) with true. cbn iota.
  rewrite Hrev. cbn [lstrip_sep]. rewrite Hc, <- Hrev, rev_involutive.
  apply string_of_list_ascii_of_string.
Qed.

End PathFacts.

(** X17. [start_agent] looks for the agent where [discover_agents] found
    it. For a directory entry whose name is a path component (not empty,
    no separator in it), the directory [start_agent] takes from the
    manifest path that [discover_agents] registered is the directory of
    the entry, and the script it runs there is that directory's
    [main.py]. *)
Theorem start_agent_finds_discovered_directory dir name :
  name <> "" -> no_sep name ->
  dirname (path_join (path_join dir name) "manifest.yaml")
  = path_join dir name
  /\ path_join (dirname (path_join (path_join dir name) "manifest.yaml"))
       "main.py"
     = path_join dir name +:+ "/main.py".
Proof.
  intros Hne Hns.
  destruct (PathFacts.path_join_ends_in_component dir name) as [l Hl].
  set (p := path_join dir name) in *.
  assert (Hjoin : forall b, path_join p b = p +:+ "/" +:+ b).
  { intros b. exact (PathFacts.path_join_component p name b l Hne Hns Hl). }
  assert (Hdir : dirname (path_join p "manifest.yaml") = p).
  { rewrite Hjoin.
    now apply (PathFacts.dirname_of_file p name l "manifest.yaml"). }
  split; [exact Hdir|]. rewrite Hdir. apply Hjoin.
Qed.

Lemma start_agent_finds_discovered_directory_witness :
  ("scanner" <> "" /\ no_sep "scanner")
  /\ dirname (path_join (path_join "./agents" "scanner") "manifest.yaml")
     = path_join "./agents" "scanner".
Proof.
  assert (Hne : "scanner" <> "") by discriminate.
  assert (Hns : no_sep "scanner") by reflexivity.
  split; [split; assumption|].
  exact (proj1 (start_agent_finds_discovered_directory "./agents" "scanner"
                  Hne Hns)).
Defined.
